(** * DevBoard Kanban: the card model of [script.js], embedded and verified

    The development follows the script top to bottom: the JavaScript
    values it manipulates, the card records, the seed data, the
    [localStorage] adapter, the event handlers that mutate the in-memory
    list, the due-date label and the board renderer.  Everything the
    browser provides (the JSON codec, the clock, the random generator,
    the date parser, the time zone, the page) is an explicit input. *)

From Stdlib Require Import ZArith NArith Ascii Lia.
From stdpp Require Import base option list strings gmap pretty.

Set Warnings "-register-all".

(* ===================================================================== *)
(** ** JavaScript values and strings *)
(* ===================================================================== *)

Module JS.

(** The values [JSON.parse] can produce.  Numbers are kept as integers:
    no card field is numeric. *)
Inductive value :=
| VNull
| VBool (b : bool)
| VNum (z : Z)
| VStr (s : string)
| VArr (items : list value)
| VObj (props : list (string * value)).

(** [o[k]] on a parsed object: own properties only, [None] is
    [undefined]. *)
Fixpoint own_prop (props : list (string * value)) (k : string) : option value :=
  match props with
  | [] => None
  | (k', v) :: rest => if String.eqb k' k then Some v else own_prop rest k
  end.

(** Characters are 8-bit code units; these are the ones
    [String.prototype.trim] strips (TAB, LF, VT, FF, CR, SP, NBSP). *)
Definition is_white_space (a : ascii) : bool :=
  let n := nat_of_ascii a in
  ((9 <=? n) && (n <=? 13)) || (n =? 32) || (n =? 160).

Fixpoint trimStart (s : string) : string :=
  match s with
  | String a rest => if is_white_space a then trimStart rest else s
  | EmptyString => EmptyString
  end.

Definition trim (s : string) : string :=
  String.rev (trimStart (String.rev (trimStart s))).

(** Truthiness of a string: only the empty string is falsy. *)
Definition truthy (s : string) : bool :=
  match s with EmptyString => false | _ => true end.

(** [x || undefined] on a string. *)
Definition or_undefined (s : string) : option string :=
  if truthy s then Some s else None.

(** [s.slice(2)] *)
Definition slice2 (s : string) : string :=
  match s with
  | String _ (String _ rest) => rest
  | _ => EmptyString
  end.

Definition digit36 (d : N) : ascii :=
  if (d <? 10)%N then ascii_of_N (48 + d) else ascii_of_N (87 + d).

Fixpoint toString36_go (fuel : nat) (n : N) (acc : string) : string :=
  match fuel with
  | O => acc
  | S fuel' =>
      let acc' := String (digit36 (n mod 36)) acc in
      if (n / 36 =? 0)%N then acc' else toString36_go fuel' (n / 36) acc'
  end.

(** [n.toString(36)] for a non-negative integer. *)
Definition toString36 (n : N) : string :=
  toString36_go (S (N.to_nat (N.log2 n))) n EmptyString.

(** The own and inherited members every object literal [{}] answers
    to through [Object.prototype]; each of them is a truthy value that
    is not a DOM node. *)
Definition Object_prototype_members : list string :=
  [ "constructor"; "__proto__"; "hasOwnProperty"; "isPrototypeOf";
    "propertyIsEnumerable"; "toLocaleString"; "toString"; "valueOf";
    "__defineGetter__"; "__defineSetter__"; "__lookupGetter__";
    "__lookupSetter__" ].

End JS.

(* ===================================================================== *)
(** ** Cards *)
(* ===================================================================== *)

(** [{id, title, description, column, tags?, dueDate?}] *)
Record Card := mkCard {
  id : string;
  title : string;
  description : string;
  column : string;
  tags : option (list string);
  dueDate : option string
}.

Global Instance Card_eq_dec : EqDecision Card.
Proof. solve_decision. Defined.

Definition STORAGE_KEY : string := "devboard-kanban-cards".

Definition COLUMNS : list string :=
  ["to-learn"; "in-progress"; "blocked"; "completed"].

(** [COLUMNS.includes(col)] *)
Definition COLUMNS_includes (col : string) : bool :=
  bool_decide (col ∈ COLUMNS).

Definition DEFAULT_CARDS : list Card :=
  [ mkCard "1" "Setup Development Environment" "Install IDE, Node, and tooling."
      "completed" (Some ["DevOps"]) None;
    mkCard "2" "Build Kanban Board" "Create this board with drag and drop."
      "completed" (Some ["Front-End"]) None;
    mkCard "3" "Learn API Integration" "REST and async patterns."
      "completed" (Some ["Back-End"]) None;
    mkCard "4" "Deploy to GitHub Pages" "Make board accessible online"
      "completed" (Some ["DevOps"]) None;
    mkCard "10" "Week 2: API Integration" "Learn to fetch external data"
      "to-learn" (Some ["Back-End"]) None;
    mkCard "6" "Feature - Card Tags" "Categorize cards with tags"
      "complete" (Some ["Front-End"]) None;
    mkCard "7" "Feature - due dates" "Insights when cards are due"
      "to-learn" (Some ["Front-End"]) None;
    mkCard "8" "Feature - Priority levels" "Prioritize cards based on importance"
      "to-learn" (Some ["Front-End"]) None;
    mkCard "9" "Feature - Search filter" "Search cards by title or description"
      "to-learn" (Some ["Front-End"]) None ].

(** The object a card is for [JSON.stringify]: a property whose value is
    [undefined] is left out. *)
Definition card_to_value (c : Card) : JS.value :=
  JS.VObj
    ([ ("id", JS.VStr (id c)); ("title", JS.VStr (title c));
       ("description", JS.VStr (description c));
       ("column", JS.VStr (column c)) ]
     ++ match tags c with
        | Some ts => [("tags", JS.VArr (JS.VStr <$> ts))]
        | None => []
        end
     ++ match dueDate c with
        | Some d => [("dueDate", JS.VStr d)]
        | None => []
        end).

Definition as_string (v : JS.value) : option string :=
  match v with JS.VStr s => Some s | _ => None end.

(** A property that must hold a string. *)
Definition string_prop (props : list (string * JS.value)) (k : string) : option string :=
  JS.own_prop props k ≫= as_string.

(** A property that may be missing, and holds a [T] otherwise. *)
Definition optional_prop {T} (read : JS.value → option T)
    (props : list (string * JS.value)) (k : string) : option (option T) :=
  match JS.own_prop props k with
  | None => Some None
  | Some v => Some <$> read v
  end.

Definition as_string_array (v : JS.value) : option (list string) :=
  match v with JS.VArr items => mapM as_string items | _ => None end.

(** Reading a parsed value at the type the script documents for a card;
    [None] when the value is not Card-shaped. *)
Definition as_card (v : JS.value) : option Card :=
  match v with
  | JS.VObj props =>
      i ← string_prop props "id";
      t ← string_prop props "title";
      d ← string_prop props "description";
      col ← string_prop props "column";
      ts ← optional_prop as_string_array props "tags";
      due ← optional_prop as_string props "dueDate";
      Some (mkCard i t d col ts due)
  | _ => None
  end.

(* ===================================================================== *)
(** ** The persistent slot *)
(* ===================================================================== *)

(** [window.localStorage] as the script meets it: access may be refused
    altogether (both calls throw), and a write throws when the value does
    not fit in the space that is left. *)
Record Storage := mkStorage {
  available : bool;
  items : gmap string string;
  capacity : N
}.

(** [localStorage.getItem(k)]: [None] is a thrown exception, [Some None]
    is [null]. *)
Definition getItem (k : string) (st : Storage) : option (option string) :=
  if available st then Some (items st !! k) else None.

(** [localStorage.setItem(k, v)]: [None] is a thrown exception. *)
Definition setItem (k v : string) (st : Storage) : option Storage :=
  if available st && (N.of_nat (String.length v) <=? capacity st)%N
  then Some (mkStorage true (<[k := v]> (items st)) (capacity st))
  else None.

Section Adapter.
(** [JSON.parse] ([None]: it throws) and [JSON.stringify]. *)
Variable JSON_parse : string → option JS.value.
Variable JSON_stringify : JS.value → string.

Definition seed_values : list JS.value := card_to_value <$> DEFAULT_CARDS.

Definition loadFromStorage (st : Storage) : list JS.value :=
  match getItem STORAGE_KEY st with
  | None => seed_values                          (* catch (_) *)
  | Some None => seed_values                     (* !raw: null *)
  | Some (Some raw) =>
      if negb (JS.truthy raw) then seed_values   (* !raw: '' *)
      else match JSON_parse raw with
           | None => seed_values                 (* catch (_) *)
           | Some (JS.VArr parsed) =>
               match parsed with
               | [] => seed_values               (* parsed.length === 0 *)
               | _ => parsed
               end
           | Some _ => seed_values               (* !Array.isArray(parsed) *)
           end
  end.

(** The loaded array read as cards. *)
Definition load_cards (st : Storage) : option (list Card) :=
  mapM as_card (loadFromStorage st).

Definition cards_document (cards : list Card) : JS.value :=
  JS.VArr (card_to_value <$> cards).

(** A failed write is logged and otherwise ignored. *)
Definition saveToStorage (cards : list Card) (st : Storage) : Storage :=
  match setItem STORAGE_KEY (JSON_stringify (cards_document cards)) st with
  | Some st' => st'
  | None => st
  end.
End Adapter.

(* ===================================================================== *)
(** ** The page state and the handler monad *)
(* ===================================================================== *)

(** What the script's closure and the page hold between two events: the
    [cards] array, [editingCardId], the storage, and [board], the
    [.column-cards] containers of the page keyed by their column's
    [data-column], each with the card elements it shows (an element is
    identified with the card it was built from).  The modal elements are
    taken to be on the page. *)
Record State := mkState {
  cards : list Card;
  editingCardId : option string;
  storage : Storage;
  board : gmap string (list Card)
}.

Definition set_cards (cs : list Card) (s : State) : State :=
  mkState cs (editingCardId s) (storage s) (board s).
Definition set_editingCardId (e : option string) (s : State) : State :=
  mkState (cards s) e (storage s) (board s).
Definition set_storage (st : Storage) (s : State) : State :=
  mkState (cards s) (editingCardId s) st (board s).
Definition set_board (b : gmap string (list Card)) (s : State) : State :=
  mkState (cards s) (editingCardId s) (storage s) b.

(** A handler runs on the state and either completes ([Some]) or is
    cut short by an uncaught exception ([None]); what it wrote before
    stays written. *)
Definition M (A : Type) : Type := State → option A * State.

Global Instance M_ret : MRet M := λ A a s, (Some a, s).
Global Instance M_bind : MBind M := λ A B f m s,
  match m s with
  | (Some a, s') => f a s'
  | (None, s') => (None, s')
  end.

Definition gets {A} (f : State → A) : M A := λ s, (Some (f s), s).
Definition modify (f : State → State) : M unit := λ s, (Some (), f s).

(** The state a handler leaves behind. *)
Definition exec {A} (m : M A) (s : State) : State := (m s).2.
(** Whether it ran to its end. *)
Definition completes {A} (m : M A) (s : State) : bool :=
  match (m s).1 with Some _ => true | None => false end.

(* ===================================================================== *)
(** ** Rendering *)
(* ===================================================================== *)

(** What [containers[k]] evaluates to when it is truthy. *)
Inductive Container :=
| ColumnCards (col : string)   (* an own property: the column's node *)
| Inherited.                   (* a member of [Object.prototype] *)

(** First loop of [renderBoard]: every column of [COLUMNS] that has a
    container on the page gets it emptied and recorded in [containers]. *)
Fixpoint collect_containers (cols : list string) (b : gmap string (list Card))
    : list string * gmap string (list Card) :=
  match cols with
  | [] => ([], b)
  | col :: rest =>
      match b !! col with
      | Some _ =>
          let '(own, b') := collect_containers rest (<[col := []]> b) in
          (col :: own, b')
      | None => collect_containers rest b
      end
  end.

(** [containers[k]], with [own] the own properties of [containers]. *)
Definition containers_get (own : list string) (k : string) : option Container :=
  if bool_decide (k ∈ own) then Some (ColumnCards k)
  else if bool_decide (k ∈ JS.Object_prototype_members) then Some Inherited
  else None.

(** Second loop: [cards.forEach(card => ...)].  The boolean is [false]
    when [container.appendChild] was called on something that is not a
    node, which throws out of the loop. *)
Fixpoint place_cards (own : list string) (cs : list Card)
    (b : gmap string (list Card)) : bool * gmap string (list Card) :=
  match cs with
  | [] => (true, b)
  | card :: rest =>
      match containers_get own (column card) with
      | None => place_cards own rest b                        (* return *)
      | Some (ColumnCards col) =>
          place_cards own rest (alter (λ shown, shown ++ [card]) col b)
      | Some Inherited => (false, b)                          (* TypeError *)
      end
  end.

Definition render (cs : list Card) (b : gmap string (list Card))
    : bool * gmap string (list Card) :=
  let '(own, b') := collect_containers COLUMNS b in
  place_cards own cs b'.

Definition renderBoard : M unit := λ s,
  let '(ok, b) := render (cards s) (board s) in
  ((if ok then Some () else None), set_board b s).

(* ===================================================================== *)
(** ** Event handlers *)
(* ===================================================================== *)

(** What the form holds when it is submitted, with the two values
    [generateId] draws from the platform. *)
Record Submission := mkSubmission {
  titleInput : string;
  descriptionInput : string;
  checkedTags : list string;
  dueDateInput : string;
  Date_now : N;              (* Date.now() *)
  random36 : string          (* Math.random().toString(36) *)
}.

Definition generateId (now : N) (rnd36 : string) : string :=
  JS.toString36 now +:+ JS.slice2 rnd36.

Definition with_column (col : string) (c : Card) : Card :=
  mkCard (id c) (title c) (description c) col (tags c) (dueDate c).

Definition with_fields (t d : string) (ts : list string) (due : option string)
    (c : Card) : Card :=
  mkCard (id c) t d (column c) (Some ts) due.

(** [cards.find(c => c.id === cardId)], with the index of the hit. *)
Definition find_card (cardId : string) (cs : list Card) : option (nat * Card) :=
  list_find (λ c, id c = cardId) cs.

Section Handlers.
Variable JSON_parse : string → option JS.value.
Variable JSON_stringify : JS.value → string.

Definition save : M unit :=
  modify (λ s, set_storage (saveToStorage JSON_stringify (cards s) (storage s)) s).

Definition openModal : M unit := modify (set_editingCardId None).

Definition openEditModal (cardId : string) : M unit :=
  cs ← gets cards;
  match find_card cardId cs with
  | None => mret ()
  | Some _ => modify (set_editingCardId (Some cardId))
  end.

Definition closeModal : M unit := modify (set_editingCardId None).

(** The edit branch of the submit handler. *)
Definition update_existing (cardId title description : string)
    (tags : list string) (dueDate : string) : M unit :=
  cs ← gets cards;
  match find_card cardId cs with
  | Some (i, card) =>
      modify (set_cards
        (<[i := with_fields title description tags (JS.or_undefined dueDate) card]> cs));;
      save;;
      renderBoard
  | None => mret ()
  end;;
  closeModal.

(** The add branch of the submit handler. *)
Definition push_new (f : Submission) (title description : string)
    (tags : list string) (dueDate : string) : M unit :=
  let newCard := mkCard (generateId (Date_now f) (random36 f)) title
                   description "to-learn" (Some tags) (JS.or_undefined dueDate) in
  modify (λ s, set_cards (cards s ++ [newCard]) s);;
  save;; renderBoard;; closeModal.

Definition handleAddCardSubmit (f : Submission) : M unit :=
  let title := JS.trim (titleInput f) in
  if negb (JS.truthy title) then mret () else
  let description := JS.trim (descriptionInput f) in
  let tags := checkedTags f in
  if 2 <? length tags then mret () (* alert(...) *) else
  let dueDate :=
    if JS.truthy (dueDateInput f) then JS.trim (dueDateInput f) else "" in
  editing ← gets editingCardId;
  match editing with
  | Some cardId =>
      if JS.truthy cardId
      then update_existing cardId title description tags dueDate
      else push_new f title description tags dueDate
  | None => push_new f title description tags dueDate
  end.

Definition deleteCard (cardId : string) : M unit :=
  modify (λ s, set_cards (filter (λ c, id c ≠ cardId) (cards s)) s);;
  save;; renderBoard.

(** [columnId] is what [getColumnId(e.target)] found ([None]: null),
    [cardId] what the drag carries ([""] when it carries nothing). *)
Definition handleDrop (columnId : option string) (cardId : string) : M unit :=
  match columnId with
  | None => mret ()
  | Some col =>
      if negb (JS.truthy col) || negb (COLUMNS_includes col) then mret () else
      if negb (JS.truthy cardId) then mret () else
      cs ← gets cards;
      match find_card cardId cs with
      | None => mret ()
      | Some (i, card) =>
          modify (set_cards (<[i := with_column col card]> cs));;
          save;; renderBoard
      end
  end.

(** [init], from the storage and the page as found; defined when the
    loaded array is made of cards. *)
Definition init (st : Storage) (page : gmap string (list Card)) : option State :=
  cs ← load_cards JSON_parse st;
  Some (exec (save;; renderBoard) (mkState cs None st page)).
End Handlers.

(* ===================================================================== *)
(** ** The due-date label *)
(* ===================================================================== *)

Local Open Scope Z_scope.

Definition msPerDay : Z := 1000 * 60 * 60 * 24.

(** [Math.round(a / b)] for [b > 0]: the nearest integer, a half going
    up. *)
Definition Math_round_div (a b : Z) : Z := (2 * a + b) `div` (2 * b).

(** ['' + n] for an integer. *)
Definition Number_toString (n : Z) : string := pretty n.

Section DueDate.
(** [new Date(s).getTime()], [None] for [NaN]. *)
Variable Date_parse : string → option Z.
(** [new Date().getTime()] *)
Variable now : Z.
(** Local time is UTC plus [utc_offset] milliseconds (a zone without
    daylight saving). *)
Variable utc_offset : Z.

(** The local calendar day a time falls on, counted from 1970-01-01. *)
Definition local_day (t : Z) : Z := (t + utc_offset) `div` msPerDay.

(** [d.setHours(0, 0, 0, 0)]: the start of [d]'s local calendar day. *)
Definition setHours0 (t : Z) : Z := local_day t * msPerDay - utc_offset.

Definition getDueDateLabel (dueDateStr : string) : string :=
  if negb (JS.truthy dueDateStr) then "" else
  match Date_parse dueDateStr with
  | None => ""
  | Some t =>
      let today := setHours0 now in
      let due := setHours0 t in
      let diffMs := due - today in
      let diffDays := Math_round_div diffMs msPerDay in
      if 0 <? diffDays then
        "Due in " +:+ Number_toString diffDays +:+ " day"
          +:+ (if diffDays =? 1 then "" else "s")
      else if diffDays =? 0 then "Due today"
      else
        let abs := Z.abs diffDays in
        if abs =? 1 then "1 day overdue"
        else Number_toString abs +:+ " days overdue"
  end.
End DueDate.

(** The label the rules give for a date [n] calendar days after today. *)
Definition label_for_days (n : Z) : string :=
  if 0 <? n then
    "Due in " +:+ Number_toString n +:+ (if n =? 1 then " day" else " days")
  else if n =? 0 then "Due today"
  else Number_toString (- n) +:+ (if n =? -1 then " day overdue" else " days overdue").

(** *** The date-only form [YYYY-MM-DD]

    The one form a date input produces.  The platform reads it as
    midnight UTC of that day. *)

Definition digit (a : ascii) : option Z :=
  let n := Z.of_nat (nat_of_ascii a) in
  if (48 <=? n) && (n <=? 57) then Some (n - 48) else None.

Definition is_leap (y : Z) : bool :=
  ((y mod 4 =? 0) && negb (y mod 100 =? 0)) || (y mod 400 =? 0).

Definition days_in_month (y m : Z) : Z :=
  if m =? 2 then (if is_leap y then 29 else 28)
  else if (m =? 4) || (m =? 6) || (m =? 9) || (m =? 11) then 30
  else 31.

(** Days from 1970-01-01 to the civil date [y-m-d]. *)
Definition days_from_civil (y m d : Z) : Z :=
  let y' := if m <=? 2 then y - 1 else y in
  let era := y' `div` 400 in
  let yoe := y' - era * 400 in
  let mp := (m + 9) `mod` 12 in
  let doy := (153 * mp + 2) `div` 5 + d - 1 in
  let doe := yoe * 365 + yoe `div` 4 - yoe `div` 100 + doy in
  era * 146097 + doe - 719468.

Definition date_only_day (s : string) : option Z :=
  match s with
  | String y1 (String y2 (String y3 (String y4 (String "-"
      (String m1 (String m2 (String "-" (String d1 (String d2 EmptyString))))))))) =>
      a ← digit y1; b ← digit y2; c ← digit y3; e ← digit y4;
      f ← digit m1; g ← digit m2; h ← digit d1; i ← digit d2;
      let y := a * 1000 + b * 100 + c * 10 + e in
      let m := f * 10 + g in
      let d := h * 10 + i in
      if (1 <=? m) && (m <=? 12) && (1 <=? d) && (d <=? days_in_month y m)
      then Some (days_from_civil y m d) else None
  | _ => None
  end.

Definition Date_parse_date_only (s : string) : option Z :=
  (λ day, day * msPerDay) <$> date_only_day s.

Local Close Scope Z_scope.

(* ===================================================================== *)
(** ** A JSON printer

    A concrete [JSON.stringify] on the values above, used to run the
    handlers on examples. *)
(* ===================================================================== *)

Module JSONText.
Import JS.

Definition quote : ascii := ascii_of_nat 34.

Definition hex (n : N) : ascii := JS.digit36 n.

Definition escape_char (a : ascii) : string :=
  let n := N_of_ascii a in
  if (n =? 34)%N then String "\" (String quote EmptyString)
  else if (n =? 92)%N then "\\"
  else if (n =? 8)%N then "\b"
  else if (n =? 9)%N then "\t"
  else if (n =? 10)%N then "\n"
  else if (n =? 12)%N then "\f"
  else if (n =? 13)%N then "\r"
  else if (n <? 32)%N then "\u00" +:+ String (hex (n / 16)) (String (hex (n mod 16)) EmptyString)
  else String a EmptyString.

Fixpoint escape (s : string) : string :=
  match s with
  | EmptyString => EmptyString
  | String a rest => escape_char a +:+ escape rest
  end.

Definition quoted (s : string) : string :=
  String quote (escape s +:+ String quote EmptyString).

Fixpoint stringify (v : value) : string :=
  match v with
  | VNull => "null"
  | VBool true => "true"
  | VBool false => "false"
  | VNum z => pretty z
  | VStr s => quoted s
  | VArr items =>
      "[" +:+
      (fix elements (l : list value) : string :=
         match l with
         | [] => EmptyString
         | x :: rest =>
             match rest with
             | [] => stringify x
             | _ => stringify x +:+ "," +:+ elements rest
             end
         end) items +:+ "]"
  | VObj props =>
      "{" +:+
      (fix members (l : list (string * value)) : string :=
         match l with
         | [] => EmptyString
         | (k, x) :: rest =>
             match rest with
             | [] => quoted k +:+ ":" +:+ stringify x
             | _ => quoted k +:+ ":" +:+ stringify x +:+ "," +:+ members rest
             end
         end) props +:+ "}"
  end.

(** A parser that knows one document: it gives [doc] back on the text
    [stringify] prints for it and rejects every other text. *)
Definition parse_only (doc : value) (raw : string) : option value :=
  if decide (raw = stringify doc) then Some doc else None.
End JSONText.

(* ===================================================================== *)
(** ** Events, and the vocabulary of the properties *)
(* ===================================================================== *)

(** The two checks the submit handler makes before it touches anything. *)
Definition accepted (f : Submission) : bool :=
  JS.truthy (JS.trim (titleInput f)) && (length (checkedTags f) <=? 2).

Definition dueDate_of (f : Submission) : string :=
  if JS.truthy (dueDateInput f) then JS.trim (dueDateInput f) else "".

Fixpoint whitespace_only (s : string) : bool :=
  match s with
  | EmptyString => true
  | String a rest => JS.is_white_space a && whitespace_only rest
  end.

Definition columns_valid (s : State) : Prop :=
  ∀ c, c ∈ cards s → column c ∈ COLUMNS.

(** One event handled. *)
Inductive step (JSON_stringify : JS.value → string) : State → State → Prop :=
| step_openModal s :
    step JSON_stringify s (exec openModal s)
| step_openEditModal s cardId :
    step JSON_stringify s (exec (openEditModal cardId) s)
| step_closeModal s :
    step JSON_stringify s (exec closeModal s)
| step_submit s f :
    step JSON_stringify s (exec (handleAddCardSubmit JSON_stringify f) s)
| step_delete s cardId :
    step JSON_stringify s (exec (deleteCard JSON_stringify cardId) s)
| step_drop s columnId cardId :
    step JSON_stringify s (exec (handleDrop JSON_stringify columnId cardId) s).

(* ===================================================================== *)
(** ** Sample data *)
(* ===================================================================== *)

(** A card as the add form makes it, and a first-run storage. *)
Definition learn_rust : Card :=
  mkCard "loyw3v284fzyo82mvyr" "Learn Rust" "" "to-learn" (Some ["Back-End"]) None.

Definition fresh_storage : Storage := mkStorage true ∅ 5000000%N.

(** A page with the four columns, nothing shown yet. *)
Definition four_columns : gmap string (list Card) :=
  {[ "to-learn" := []; "in-progress" := []; "blocked" := []; "completed" := [] ]}.

(** A stored card whose id is the empty string. *)
Definition nameless : Card := mkCard "" "Untitled" "" "to-learn" None None.

Definition learn_rust_form : Submission :=
  mkSubmission "Learn Rust" "" ["Back-End"] "" 1700000000000 "0.4fzyo82mvyr".

(** A stored card whose column is the name of an inherited member. *)
Definition stray : Card := mkCard "s1" "Stray" "" "constructor" None None.

(* ===================================================================== *)
(** ** The rest of the listeners *)
(* ===================================================================== *)

Section Listeners.
Variable JSON_stringify : JS.value → string.

(** The click listener of the modal's delete button; [confirmed] is
    what [confirm(...)] answers when it is asked. *)
Definition modalDeleteClick (confirmed : bool) : M unit :=
  editing ← gets editingCardId;
  match editing with
  | Some cardId =>
      if JS.truthy cardId && confirmed
      then deleteCard JSON_stringify cardId;; closeModal
      else mret ()
  | None => mret ()
  end.

(** The gear button of a card: [cardId] is the [data-card-id] the
    listener reads ([""] when it finds none). *)
Definition gearClick (cardId : string) : M unit :=
  if JS.truthy cardId then openEditModal cardId else mret ().
End Listeners.

(** The submit handler of the earlier variant of the script: it has no
    edit mode and no due date, and its [closeModal] only touches the
    page. *)
Definition handleAddCardSubmit_earlier (JSON_stringify : JS.value → string)
    (f : Submission) : M unit :=
  let title := JS.trim (titleInput f) in
  if negb (JS.truthy title) then mret () else
  let description := JS.trim (descriptionInput f) in
  let tags := checkedTags f in
  if 2 <? length tags then mret () (* alert(...) *) else
  let newCard := mkCard (generateId (Date_now f) (random36 f)) title
                   description "to-learn" (Some tags) None in
  modify (λ s, set_cards (cards s ++ [newCard]) s);;
  save JSON_stringify;; renderBoard.

(** The listeners [bindEvents] installs that touch the state, each with
    what it is given: the add button, the form, the cancel buttons with
    the overlay and the Escape key, the modal's delete button, a click on
    the board, and a drop. *)
Inductive listener (JSON_stringify : JS.value → string) : State → State → Prop :=
| listener_add_button s :
    listener JSON_stringify s (exec openModal s)
| listener_submit s f :
    listener JSON_stringify s (exec (handleAddCardSubmit JSON_stringify f) s)
| listener_cancel s :
    listener JSON_stringify s (exec closeModal s)
| listener_modal_delete s confirmed :
    listener JSON_stringify s (exec (modalDeleteClick JSON_stringify confirmed) s)
| listener_board_click s cardId :
    listener JSON_stringify s (exec (gearClick cardId) s)
| listener_drop s columnId cardId :
    listener JSON_stringify s (exec (handleDrop JSON_stringify columnId cardId) s).

(** One event of the page handled: those of [step], and the two
    listeners above. *)
Inductive event (JSON_stringify : JS.value → string) : State → State → Prop :=
| event_step s s' :
    step JSON_stringify s s' → event JSON_stringify s s'
| event_modalDelete s confirmed :
    event JSON_stringify s (exec (modalDeleteClick JSON_stringify confirmed) s)
| event_gear s cardId :
    event JSON_stringify s (exec (gearClick cardId) s).

(** The card the add branch builds from an accepted submission. *)
Definition new_card (f : Submission) : Card :=
  mkCard (generateId (Date_now f) (random36 f)) (JS.trim (titleInput f))
    (JS.trim (descriptionInput f)) "to-learn" (Some (checkedTags f))
    (JS.or_undefined (dueDate_of f)).

(** The card the edit branch makes of [c]. *)
Definition edited_card (f : Submission) (c : Card) : Card :=
  with_fields (JS.trim (titleInput f)) (JS.trim (descriptionInput f))
    (checkedTags f) (JS.or_undefined (dueDate_of f)) c.

(** What the handlers keep true of every card: a non-empty id, a
    non-empty title, at most two tags, and never the empty string as due
    date. *)
Definition card_sound (c : Card) : Prop :=
  id c ≠ "" ∧ title c ≠ "" ∧
  (∀ ts, tags c = Some ts → length ts ≤ 2) ∧
  dueDate c ≠ Some "".

(** The slot holds the text of the collection in memory. *)
Definition in_sync (JSON_stringify : JS.value → string) (s : State) : Prop :=
  getItem STORAGE_KEY (storage s)
  = Some (Some (JSON_stringify (cards_document (cards s)))).

(** An event either leaves collection and storage alone, or saves the
    collection it leaves. *)
Definition persisted (JSON_stringify : JS.value → string) (s s' : State) : Prop :=
  (cards s' = cards s ∧ storage s' = storage s) ∨
  storage s' = saveToStorage JSON_stringify (cards s') (storage s).

(* ===================================================================== *)
(** ** Card elements *)
(* ===================================================================== *)

(** What [createCardElement] builds, as far as it depends on the card:
    the [data-card-id], the title, the tag spans when there is a tag
    container, the description, whether there is a show-more toggle, the
    text of the due indicator when there is one, and whether the element
    has the class [card-overdue]. *)
Record CardElement := mkCardElement {
  data_card_id : string;
  card_title : string;
  card_tags : option (list string);
  card_description : string;
  description_toggle : bool;
  due_indicator : option string;
  card_overdue : bool
}.

Section CardElements.
Variable Date_parse : string → option Z.
Variable utc_offset : Z.
(** The clock is read twice: by [getDueDateLabel], and then for the
    overdue test. *)
Variable now_label now_flag : Z.

Definition createCardElement (card : Card) : CardElement :=
  let tagsContainer :=
    match tags card with
    | Some (t :: ts) => Some (t :: ts)
    | _ => None
    end in
  let descText := JS.trim (description card) in
  let dueDateStr :=
    match dueDate card with
    | Some d => if JS.truthy d then JS.trim d else d
    | None => ""
    end in
  let due :=
    if JS.truthy dueDateStr then
      let dueLabel := getDueDateLabel Date_parse now_label utc_offset dueDateStr in
      if JS.truthy dueLabel then
        (Some dueLabel,
         match Date_parse dueDateStr with
         | Some t => (setHours0 utc_offset t <? setHours0 utc_offset now_flag)%Z
         | None => false
         end)
      else (None, false)
    else (None, false) in
  mkCardElement (id card) (title card) tagsContainer (description card)
    (80 <? String.length descText) due.1 due.2.
End CardElements.

(* ===================================================================== *)
(** ** The tag checkboxes *)
(* ===================================================================== *)

(** A [.tag-checkbox] with the style of the [.tag-option] around it. *)
Record Checkbox := mkCheckbox {
  cb_value : string;
  cb_checked : bool;
  cb_disabled : bool;
  option_opacity : string;
  option_cursor : string
}.

Definition checked_boxes (cbs : list Checkbox) : list Checkbox :=
  filter (λ cb, cb_checked cb = true) cbs.

(** The body of the loop of [updateTagCheckboxes], for [n] checked
    boxes. *)
Definition restyle (n : nat) (cb : Checkbox) : Checkbox :=
  if negb (cb_checked cb) && (2 <=? n)
  then mkCheckbox (cb_value cb) (cb_checked cb) true "0.5" "not-allowed"
  else mkCheckbox (cb_value cb) (cb_checked cb) false "1" "pointer".

Definition updateTagCheckboxes (cbs : list Checkbox) : list Checkbox :=
  let checked := checked_boxes cbs in
  restyle (length checked) <$> cbs.

Definition toggled (cb : Checkbox) : Checkbox :=
  mkCheckbox (cb_value cb) (negb (cb_checked cb)) (cb_disabled cb)
    (option_opacity cb) (option_cursor cb).

(** The user clicks the [i]-th checkbox: a disabled one ignores the
    click; otherwise it flips and its [change] listener runs. *)
Definition clickCheckbox (i : nat) (cbs : list Checkbox) : list Checkbox :=
  match cbs !! i with
  | Some cb =>
      if cb_disabled cb then cbs
      else updateTagCheckboxes (<[i := toggled cb]> cbs)
  | None => cbs
  end.

(** A run of clicks, first to last. *)
Definition clickCheckboxes (clicks : list nat) (cbs : list Checkbox) : list Checkbox :=
  foldl (λ boxes i, clickCheckbox i boxes) cbs clicks.

(** At most two boxes are checked, and the disabled flags are those
    [updateTagCheckboxes] sets. *)
Definition capped (cbs : list Checkbox) : Prop :=
  length (checked_boxes cbs) ≤ 2 ∧ updateTagCheckboxes cbs = cbs.

(** What [openModal] and [closeModal] do to the checkboxes. *)
Definition resetCheckboxes (cbs : list Checkbox) : list Checkbox :=
  updateTagCheckboxes
    ((λ cb, mkCheckbox (cb_value cb) false (cb_disabled cb)
              (option_opacity cb) (option_cursor cb)) <$> cbs).

(* ===================================================================== *)
(** * Properties *)
(* ===================================================================== *)

(** ** Cards and their stored form *)

Lemma mapM_as_string_VStr ts : mapM as_string (JS.VStr <$> ts) = Some ts.
Proof.
  induction ts as [|t ts IH]; [done|].
  rewrite fmap_cons. cbn [mapM as_string]. rewrite IH. done.
Qed.

Lemma as_card_to_value c : as_card (card_to_value c) = Some c.
Proof.
  destruct c as [i t d col ts due].
  destruct ts as [ts|], due as [due|];
    cbn -[mapM]; rewrite ?mapM_as_string_VStr; reflexivity.
Qed.

Lemma mapM_as_card_to_value cards : mapM as_card (card_to_value <$> cards) = Some cards.
Proof.
  induction cards as [|c cards IH]; [done|].
  rewrite fmap_cons. cbn [mapM]. rewrite as_card_to_value, IH. done.
Qed.

Lemma seed_values_as_cards : mapM as_card seed_values = Some DEFAULT_CARDS.
Proof. apply mapM_as_card_to_value. Qed.

Example toString36_digits :
  JS.toString36 0 = "0" ∧ JS.toString36 35 = "z" ∧ JS.toString36 36 = "10" ∧
  JS.toString36 1700000000000 = "loyw3v28".
Proof. repeat split; by vm_compute. Qed.

Example generateId_learn_rust :
  generateId (Date_now learn_rust_form) (random36 learn_rust_form) = id learn_rust.
Proof. by vm_compute. Qed.

Example trim_both_ends : JS.trim "  Learn Rust  " = "Learn Rust" ∧ JS.trim "   " = "".
Proof. split; by vm_compute. Qed.

Example stringify_array :
  JSONText.stringify (JS.VArr [JS.VNum 1; JS.VStr "a\b"; JS.VNull; JS.VBool true])
  = "[1," +:+ String JSONText.quote ("a\\b" +:+ String JSONText.quote ",null,true]").
Proof. by vm_compute. Qed.

(** A slot holding the one card [nameless] loads as that card. *)
Example nameless_loads :
  let doc := cards_document [nameless] in
  load_cards (JSONText.parse_only doc)
    (mkStorage true {[ STORAGE_KEY := JSONText.stringify doc ]} 5000000)
  = Some [nameless].
Proof. by vm_compute. Qed.

Lemma truthy_true s : JS.truthy s = true ↔ s ≠ "".
Proof. destruct s; simpl; split; intros; congruence. Qed.

Lemma truthy_false s : JS.truthy s = false ↔ s = "".
Proof. destruct s; simpl; split; intros; congruence. Qed.

(** ** The storage adapter *)

Section AdapterFacts.
Variable JSON_parse : string → option JS.value.

(** When the slot holds a non-empty array, that array is what is
    loaded, whatever its elements are. *)
Lemma loadFromStorage_array st raw v vs :
  getItem STORAGE_KEY st = Some (Some raw) →
  raw ≠ "" →
  JSON_parse raw = Some (JS.VArr (v :: vs)) →
  loadFromStorage JSON_parse st = v :: vs.
Proof.
  intros Hget Hraw Hparse. unfold loadFromStorage. rewrite Hget.
  destruct raw as [|a raw]; [done|]. simpl.
  rewrite Hparse. reflexivity.
Qed.

Lemma loadFromStorage_cases st :
  loadFromStorage JSON_parse st = seed_values ∨
  ∃ raw v vs, getItem STORAGE_KEY st = Some (Some raw) ∧ raw ≠ "" ∧
              JSON_parse raw = Some (JS.VArr (v :: vs)) ∧
              loadFromStorage JSON_parse st = v :: vs.
Proof.
  unfold loadFromStorage.
  destruct (getItem STORAGE_KEY st) as [[raw|]|] eqn:Hget; auto.
  destruct (JS.truthy raw) eqn:Hraw; simpl; auto.
  destruct (JSON_parse raw) as [[| | | |[|v vs]|]|] eqn:Hp; auto.
  right. apply truthy_true in Hraw. eauto 10.
Qed.

Lemma getItem_setItem k v st st' :
  setItem k v st = Some st' → getItem k st' = Some (Some v).
Proof.
  unfold setItem, getItem. intros H.
  destruct (available st && _); [|done].
  injection H as <-. simpl. by rewrite lookup_insert_eq.
Qed.
End AdapterFacts.

(** C2, as stated, fails twice.  The seed has no card in [in-progress]
    (nor in [blocked]); and a slot holding the array [[1]], which is not
    made of cards, is loaded as it is. *)
Lemma load_seed_claim_counterexample :
  ¬ (∀ col, col ∈ COLUMNS → ∃ c, c ∈ DEFAULT_CARDS ∧ column c = col) ∧
  (let doc := JS.VArr [JS.VNum 1] in
   let st := mkStorage true {[ STORAGE_KEY := JSONText.stringify doc ]} 0 in
   mapM as_card (loadFromStorage (JSONText.parse_only doc) st) = None ∧
   loadFromStorage (JSONText.parse_only doc) st ≠ seed_values).
Proof.
  split.
  - intros H. destruct (H "in-progress") as (c & Hc & Hcol).
    + set_solver.
    + unfold DEFAULT_CARDS in Hc.
      repeat (apply elem_of_cons in Hc as [-> | Hc]; [discriminate Hcol|]).
      by apply elem_of_nil in Hc.
  - split; [reflexivity|]. vm_compute. discriminate.
Qed.

(** C2, amended: [loadFromStorage] is total; whenever the slot cannot be
    read, is absent or empty, or does not parse to a non-empty array, it
    returns the seed, whose 9 cards are the predefined ones, with cards in
    [to-learn] and in [completed] and none in [in-progress] or
    [blocked]. *)
Theorem load_falls_back_to_seed (JSON_parse : string → option JS.value) (st : Storage) :
  (∀ raw vs, getItem STORAGE_KEY st = Some (Some raw) → raw ≠ "" →
             JSON_parse raw = Some (JS.VArr vs) → vs = []) →
  loadFromStorage JSON_parse st = seed_values ∧
  load_cards JSON_parse st = Some DEFAULT_CARDS ∧
  length DEFAULT_CARDS = 9 ∧
  (∃ c, c ∈ DEFAULT_CARDS ∧ column c = "to-learn") ∧
  (∃ c, c ∈ DEFAULT_CARDS ∧ column c = "completed") ∧
  (∀ c, c ∈ DEFAULT_CARDS → column c ≠ "in-progress" ∧ column c ≠ "blocked").
Proof.
  intros Hslot.
  assert (Hload : loadFromStorage JSON_parse st = seed_values).
  { destruct (loadFromStorage_cases JSON_parse st)
      as [H | (raw & v & vs & Hget & Hraw & Hp & _)]; [exact H|].
    specialize (Hslot raw (v :: vs) Hget Hraw Hp). discriminate Hslot. }
  split; [exact Hload|]. split.
  { unfold load_cards. rewrite Hload. apply seed_values_as_cards. }
  split; [reflexivity|]. split.
  { exists (mkCard "10" "Week 2: API Integration" "Learn to fetch external data"
              "to-learn" (Some ["Back-End"]) None). split; [set_solver|reflexivity]. }
  split.
  { exists (mkCard "1" "Setup Development Environment" "Install IDE, Node, and tooling."
              "completed" (Some ["DevOps"]) None). split; [set_solver|reflexivity]. }
  intros c Hc. unfold DEFAULT_CARDS in Hc.
  repeat (apply elem_of_cons in Hc as [-> | Hc]; [split; discriminate|]).
  by apply elem_of_nil in Hc.
Qed.

(** A slot that was never written, and a slot holding text that does not
    parse. *)
Lemma load_falls_back_to_seed_witness :
  loadFromStorage (JSONText.parse_only (JS.VArr [])) fresh_storage = seed_values ∧
  loadFromStorage (λ _, None)
    (mkStorage true {[ STORAGE_KEY := "{oops" ]} 0) = seed_values ∧
  loadFromStorage (JSONText.parse_only (cards_document [learn_rust]))
    (mkStorage false
       {[ STORAGE_KEY := JSONText.stringify (cards_document [learn_rust]) ]} 0)
    = seed_values.
Proof.
  split; [|split].
  - apply (load_falls_back_to_seed (JSONText.parse_only (JS.VArr [])) fresh_storage).
    intros raw vs Hget _ _. vm_compute in Hget. discriminate Hget.
  - apply (load_falls_back_to_seed (λ _, None)
             (mkStorage true {[ STORAGE_KEY := "{oops" ]} 0)).
    intros raw vs _ _ Hparse. discriminate Hparse.
  - apply (load_falls_back_to_seed (JSONText.parse_only (cards_document [learn_rust]))).
    intros raw vs Hget _ _. discriminate Hget.
Defined.

(** C8, as stated, fails when the write is refused: with no space left
    the slot keeps what it had (here nothing), and the next load gives
    the seed, not the cards that were to be saved. *)
Lemma save_load_roundtrip_counterexample :
  let cs := [learn_rust] in
  let doc := cards_document cs in
  let full := mkStorage true ∅ 0 in
  cs ≠ [] ∧
  JSONText.parse_only doc (JSONText.stringify doc) = Some doc ∧
  load_cards (JSONText.parse_only doc) (saveToStorage JSONText.stringify cs full)
    = Some DEFAULT_CARDS ∧
  load_cards (JSONText.parse_only doc) (saveToStorage JSONText.stringify cs full)
    ≠ Some cs.
Proof.
  cbv zeta. split; [discriminate|]. split; [by vm_compute|].
  assert (H : saveToStorage JSONText.stringify [learn_rust] (mkStorage true ∅ 0)
              = mkStorage true ∅ 0) by (by vm_compute).
  rewrite H.
  assert (H' : load_cards (JSONText.parse_only (cards_document [learn_rust]))
                 (mkStorage true ∅ 0) = Some DEFAULT_CARDS) by reflexivity.
  rewrite H'. split; [reflexivity|discriminate].
Qed.

(** C8, amended: for every non-empty collection of cards, when the write
    to the slot is accepted, saving and then loading gives the same
    cards back, in the same order and with the same fields.  The JSON
    codec is taken to print a non-empty text for the collection and to
    parse that text back to it. *)
Theorem save_then_load_roundtrip
    (JSON_parse : string → option JS.value) (JSON_stringify : JS.value → string)
    (st : Storage) (cs : list Card) :
  cs ≠ [] →
  is_Some (setItem STORAGE_KEY (JSON_stringify (cards_document cs)) st) →
  JSON_stringify (cards_document cs) ≠ "" →
  JSON_parse (JSON_stringify (cards_document cs)) = Some (cards_document cs) →
  loadFromStorage JSON_parse (saveToStorage JSON_stringify cs st) = card_to_value <$> cs ∧
  load_cards JSON_parse (saveToStorage JSON_stringify cs st) = Some cs.
Proof.
  intros Hne [st' Hset] Htext Hcodec.
  assert (Hload : loadFromStorage JSON_parse (saveToStorage JSON_stringify cs st)
                  = card_to_value <$> cs).
  { unfold saveToStorage. rewrite Hset.
    destruct cs as [|c cs]; [done|].
    apply (loadFromStorage_array JSON_parse st' (JSON_stringify (cards_document (c :: cs)))).
    - by eapply getItem_setItem.
    - exact Htext.
    - exact Hcodec. }
  split; [exact Hload|].
  unfold load_cards. rewrite Hload. apply mapM_as_card_to_value.
Qed.

Lemma save_then_load_roundtrip_witness :
  load_cards (JSONText.parse_only (cards_document [learn_rust]))
    (saveToStorage JSONText.stringify [learn_rust] fresh_storage) = Some [learn_rust].
Proof.
  apply (save_then_load_roundtrip (JSONText.parse_only (cards_document [learn_rust]))
           JSONText.stringify fresh_storage [learn_rust]).
  - discriminate.
  - vm_compute. eauto.
  - vm_compute. discriminate.
  - vm_compute. reflexivity.
Defined.

(** ** Running handlers *)

Ltac unfold_M :=
  unfold exec, completes, save, renderBoard, closeModal, openModal,
    mbind, M_bind, mret, M_ret, gets, modify.

Ltac simpl_state :=
  cbn beta iota zeta delta
    [fst snd cards editingCardId storage board
     set_cards set_editingCardId set_storage set_board].

(** Symbolic execution of a handler: unfold the monad and split on the
    outcome of rendering. *)
Ltac run :=
  unfold_M; simpl_state;
  repeat (match goal with
          | |- context [render ?cs ?b] => destruct (render cs b) as [[] ?]
          end; simpl_state).

Lemma COLUMNS_truthy col : col ∈ COLUMNS → JS.truthy col = true.
Proof.
  unfold COLUMNS. intros H.
  repeat (apply elem_of_cons in H as [-> | H]; [reflexivity|]).
  by apply elem_of_nil in H.
Qed.

Lemma find_card_Some cardId cs i c :
  find_card cardId cs = Some (i, c) →
  cs !! i = Some c ∧ id c = cardId ∧
  ∀ j c', cs !! j = Some c' → j < i → id c' ≠ cardId.
Proof. unfold find_card. intros H. by apply list_find_Some in H. Qed.

Lemma find_card_None cardId cs :
  find_card cardId cs = None ↔ cardId ∉ id <$> cs.
Proof.
  unfold find_card. rewrite list_find_None, Forall_forall, list_elem_of_fmap.
  split.
  - intros H (c & -> & Hc). by apply (H c).
  - intros H c Hc Hid. apply H. by exists c.
Qed.

Lemma find_card_is_Some cardId cs :
  cardId ∈ id <$> cs → ∃ i c, find_card cardId cs = Some (i, c).
Proof.
  intros Hin. destruct (find_card cardId cs) as [[i c]|] eqn:Hf; [eauto|].
  by apply find_card_None in Hf.
Qed.

Lemma toString36_go_nonempty fuel n acc :
  fuel ≠ 0 ∨ acc ≠ "" → JS.toString36_go fuel n acc ≠ "".
Proof.
  revert n acc. induction fuel as [|fuel IH]; intros n acc H; simpl.
  - destruct H; done.
  - destruct (n / 36 =? 0)%N; [done|]. apply IH. by right.
Qed.

Lemma generateId_nonempty now rnd36 : generateId now rnd36 ≠ "".
Proof.
  unfold generateId, JS.toString36.
  pose proof (toString36_go_nonempty (S (N.to_nat (N.log2 now))) now "") as H.
  destruct (JS.toString36_go _ now "") as [|a rest]; [|done].
  exfalso. apply H; [by left|reflexivity].
Qed.

Section HandlerFacts.
Variable JSON_stringify : JS.value → string.

Lemma cards_save s : cards (exec (save JSON_stringify) s) = cards s.
Proof. reflexivity. Qed.

Lemma cards_renderBoard s : cards (exec renderBoard s) = cards s.
Proof. run; reflexivity. Qed.

(** Writing the array, persisting and rendering leaves the array as
    written, whether rendering completes or not. *)
Lemma cards_write_through cs s :
  cards (exec (modify (set_cards cs);; save JSON_stringify;; renderBoard) s) = cs.
Proof. run; reflexivity. Qed.

Lemma cards_update_existing cardId t d ts due s :
  cards (exec (update_existing JSON_stringify cardId t d ts due) s) =
  match find_card cardId (cards s) with
  | Some (i, card) => <[i := with_fields t d ts (JS.or_undefined due) card]> (cards s)
  | None => cards s
  end.
Proof.
  unfold update_existing. unfold_M. simpl_state.
  destruct (find_card cardId (cards s)) as [[i card]|]; [|reflexivity].
  run; reflexivity.
Qed.

Lemma cards_push_new f t d ts due s :
  cards (exec (push_new JSON_stringify f t d ts due) s) =
  cards s ++ [mkCard (generateId (Date_now f) (random36 f)) t d "to-learn"
                (Some ts) (JS.or_undefined due)].
Proof. unfold push_new. run; reflexivity. Qed.

Lemma cards_deleteCard cardId s :
  cards (exec (deleteCard JSON_stringify cardId) s) =
  filter (λ c, id c ≠ cardId) (cards s).
Proof. unfold deleteCard. run; reflexivity. Qed.

Lemma cards_handleDrop_found col cardId i card s :
  col ∈ COLUMNS → cardId ≠ "" →
  find_card cardId (cards s) = Some (i, card) →
  cards (exec (handleDrop JSON_stringify (Some col) cardId) s) =
  <[i := with_column col card]> (cards s).
Proof.
  intros Hcol Hid Hfind. unfold handleDrop.
  rewrite (COLUMNS_truthy col Hcol).
  unfold COLUMNS_includes. rewrite (bool_decide_eq_true_2 _ Hcol).
  apply truthy_true in Hid. rewrite Hid. cbn [negb orb].
  unfold_M. simpl_state. rewrite Hfind. run; reflexivity.
Qed.
End HandlerFacts.

(** ** The submit handler, by mode *)

Lemma whitespace_only_rev_app s1 s2 :
  whitespace_only (String.rev_app s1 s2) = whitespace_only s1 && whitespace_only s2.
Proof.
  revert s2. induction s1 as [|a s1 IH]; intros s2; simpl; [done|].
  rewrite IH. simpl. destruct (JS.is_white_space a), (whitespace_only s1); done.
Qed.

Lemma whitespace_only_rev s : whitespace_only (String.rev s) = whitespace_only s.
Proof. unfold String.rev. rewrite whitespace_only_rev_app. simpl. by rewrite andb_true_r. Qed.

Lemma trimStart_empty s : JS.trimStart s = "" ↔ whitespace_only s = true.
Proof.
  induction s as [|a s IH]; simpl; [done|].
  destruct (JS.is_white_space a); simpl; [exact IH|]. split; discriminate.
Qed.

Lemma whitespace_only_trimStart s : whitespace_only (JS.trimStart s) = whitespace_only s.
Proof.
  induction s as [|a s IH]; simpl; [done|].
  destruct (JS.is_white_space a) eqn:Ha; simpl; [exact IH|]. by rewrite Ha.
Qed.

Lemma rev_app_empty s1 s2 : String.rev_app s1 s2 = "" → s1 = "" ∧ s2 = "".
Proof.
  revert s2. induction s1 as [|a s1 IH]; intros s2; simpl; [done|].
  intros H. apply IH in H as [_ H]. discriminate H.
Qed.

(** [trim] leaves nothing exactly when the string is empty or made of
    white space only. *)
Lemma trim_empty s : JS.trim s = "" ↔ whitespace_only s = true.
Proof.
  unfold JS.trim. split.
  - intros H. apply rev_app_empty in H as [H _].
    apply trimStart_empty in H. rewrite whitespace_only_rev in H.
    by rewrite whitespace_only_trimStart in H.
  - intros H. apply trimStart_empty in H. rewrite H. reflexivity.
Qed.

Section SubmitFacts.
Variable JSON_stringify : JS.value → string.

Lemma submit_rejected f s :
  accepted f = false → exec (handleAddCardSubmit JSON_stringify f) s = s.
Proof.
  unfold accepted, handleAddCardSubmit. intros H.
  destruct (JS.truthy (JS.trim (titleInput f))); [|reflexivity].
  simpl in H. apply Nat.leb_gt in H.
  cbn [negb]. destruct (2 <? length (checkedTags f)) eqn:Hlt; [reflexivity|].
  apply Nat.ltb_ge in Hlt. lia.
Qed.

Lemma submit_accepted f :
  accepted f = true →
  JS.truthy (JS.trim (titleInput f)) = true ∧ (2 <? length (checkedTags f)) = false.
Proof.
  unfold accepted. intros [H1 H2]%andb_true_iff. split; [exact H1|].
  apply Nat.leb_le in H2. apply Nat.ltb_ge. lia.
Qed.

Lemma submit_in_add_mode f s :
  accepted f = true →
  editingCardId s = None ∨ editingCardId s = Some "" →
  exec (handleAddCardSubmit JSON_stringify f) s =
  exec (push_new JSON_stringify f (JS.trim (titleInput f))
          (JS.trim (descriptionInput f)) (checkedTags f) (dueDate_of f)) s.
Proof.
  intros [H1 H2]%submit_accepted Hmode. unfold handleAddCardSubmit.
  rewrite H1, H2. cbn [negb].
  unfold exec at 1, mbind at 1, M_bind at 1, gets.
  destruct Hmode as [-> | ->]; reflexivity.
Qed.

Lemma submit_in_edit_mode f s cardId :
  accepted f = true → editingCardId s = Some cardId → cardId ≠ "" →
  exec (handleAddCardSubmit JSON_stringify f) s =
  exec (update_existing JSON_stringify cardId (JS.trim (titleInput f))
          (JS.trim (descriptionInput f)) (checkedTags f) (dueDate_of f)) s.
Proof.
  intros [H1 H2]%submit_accepted Hmode Hid%truthy_true. unfold handleAddCardSubmit.
  rewrite H1, H2. cbn [negb].
  unfold exec at 1, mbind at 1, M_bind at 1, gets. rewrite Hmode, Hid. reflexivity.
Qed.
End SubmitFacts.

(** ** The card operations *)

(** C3, as stated, fails: [generateId] is not checked against the ids in
    use.  Starting from the seed, submitting the form twice within the
    same millisecond and with the same random draw gives the second card
    the id of the first. *)
Lemma addCard_fresh_id_counterexample :
  let s0 := mkState DEFAULT_CARDS None fresh_storage four_columns in
  let s := exec (handleAddCardSubmit JSONText.stringify learn_rust_form) s0 in
  editingCardId s = None ∧
  JS.trim (titleInput learn_rust_form) ≠ "" ∧
  length (checkedTags learn_rust_form) ≤ 2 ∧
  ∃ c, cards (exec (handleAddCardSubmit JSONText.stringify learn_rust_form) s)
         = cards s ++ [c] ∧
       id c ∈ id <$> cards s.
Proof.
  cbv zeta. split; [by vm_compute|]. split; [by vm_compute|]. split; [simpl; lia|].
  exists learn_rust. split; [by vm_compute|].
  apply list_elem_of_fmap. exists learn_rust. split; [reflexivity|].
  assert (H : cards (exec (handleAddCardSubmit JSONText.stringify learn_rust_form)
                       (mkState DEFAULT_CARDS None fresh_storage four_columns))
              = DEFAULT_CARDS ++ [learn_rust]) by (by vm_compute).
  rewrite H. apply elem_of_app. right. by left.
Qed.

(** C3, amended: in add mode, for every input with a non-empty trimmed
    title and at most 2 tags, the submit handler appends exactly one card
    at the end; the card is in [to-learn], carries the trimmed inputs,
    and its id is the non-empty string [generateId] builds from the clock
    and the random draw.  That string is not compared with the ids in
    use: the ids of the collection stay pairwise distinct whenever it is
    not already one of them. *)
Theorem addCard_appends (JSON_stringify : JS.value → string) (s : State) (f : Submission) :
  editingCardId s = None →
  JS.trim (titleInput f) ≠ "" →
  length (checkedTags f) ≤ 2 →
  let s' := exec (handleAddCardSubmit JSON_stringify f) s in
  ∃ c, cards s' = cards s ++ [c] ∧
       length (cards s') = S (length (cards s)) ∧
       column c = "to-learn" ∧
       title c = JS.trim (titleInput f) ∧
       description c = JS.trim (descriptionInput f) ∧
       tags c = Some (checkedTags f) ∧
       id c = generateId (Date_now f) (random36 f) ∧
       id c ≠ "" ∧
       (NoDup (id <$> cards s) → id c ∉ id <$> cards s → NoDup (id <$> cards s')).
Proof.
  intros Hmode Htitle Htags s'.
  assert (Hacc : accepted f = true).
  { unfold accepted. apply andb_true_iff. split; [by apply truthy_true|].
    by apply Nat.leb_le. }
  assert (Hs' : cards s' = cards s ++
            [mkCard (generateId (Date_now f) (random36 f)) (JS.trim (titleInput f))
               (JS.trim (descriptionInput f)) "to-learn" (Some (checkedTags f))
               (JS.or_undefined (dueDate_of f))]).
  { unfold s'. rewrite (submit_in_add_mode _ _ _ Hacc (or_introl Hmode)).
    apply cards_push_new. }
  eexists. split; [exact Hs'|]. rewrite Hs'. cbn [column title description tags id].
  split; [rewrite length_app; simpl; lia|].
  repeat (split; [reflexivity|]).
  split; [apply generateId_nonempty|].
  intros Hnodup Hfresh. rewrite fmap_app. apply NoDup_app.
  split; [exact Hnodup|]. split.
  - intros x Hx Hx'. simpl in Hx'. apply list_elem_of_singleton in Hx'. by subst x.
  - simpl. apply NoDup_singleton.
Qed.

Lemma addCard_appends_witness :
  ∃ c, cards (exec (handleAddCardSubmit JSONText.stringify learn_rust_form)
                (mkState DEFAULT_CARDS None fresh_storage four_columns))
         = DEFAULT_CARDS ++ [c] ∧
       length (DEFAULT_CARDS ++ [c]) = 10 ∧
       title c = "Learn Rust" ∧ column c = "to-learn" ∧ tags c = Some ["Back-End"].
Proof.
  destruct (addCard_appends JSONText.stringify
              (mkState DEFAULT_CARDS None fresh_storage four_columns) learn_rust_form)
    as (c & Hc & Hlen & Hcol & Htitle & _ & Htags & _).
  - reflexivity.
  - vm_compute. discriminate.
  - simpl. lia.
  - exists c. split; [exact Hc|]. split.
    + rewrite length_app. simpl. lia.
    + split; [exact Htitle|]. split; [exact Hcol|exact Htags].
Defined.

(** C4: a submission whose title is empty or made of white space only,
    or that carries 3 or more tags, changes nothing, whether the form is
    adding a card or updating one: the state after it, and so the
    collection, is the state before. *)
Theorem rejected_submission_is_noop
    (JSON_stringify : JS.value → string) (s : State) (f : Submission) :
  whitespace_only (titleInput f) = true ∨ 3 ≤ length (checkedTags f) →
  exec (handleAddCardSubmit JSON_stringify f) s = s ∧
  cards (exec (handleAddCardSubmit JSON_stringify f) s) = cards s.
Proof.
  intros H.
  assert (Hrej : accepted f = false).
  { unfold accepted. apply andb_false_iff. destruct H as [H | H].
    - left. apply truthy_false. by apply trim_empty.
    - right. apply Nat.leb_gt. lia. }
  rewrite (submit_rejected _ _ _ Hrej). split; reflexivity.
Qed.

Lemma rejected_submission_is_noop_witness :
  let blank := mkSubmission "   " "notes" ["DevOps"] "" 1700000000000 "0.4fzyo82mvyr" in
  let crowded := mkSubmission "Learn Go" "" ["DevOps"; "Back-End"; "Front-End"] ""
                   1700000000000 "0.4fzyo82mvyr" in
  let adding := mkState DEFAULT_CARDS None fresh_storage four_columns in
  let editing := mkState DEFAULT_CARDS (Some "3") fresh_storage four_columns in
  cards (exec (handleAddCardSubmit JSONText.stringify blank) adding) = DEFAULT_CARDS ∧
  cards (exec (handleAddCardSubmit JSONText.stringify crowded) adding) = DEFAULT_CARDS ∧
  cards (exec (handleAddCardSubmit JSONText.stringify crowded) editing) = DEFAULT_CARDS.
Proof.
  cbv zeta. split; [|split].
  - apply (rejected_submission_is_noop JSONText.stringify). left. reflexivity.
  - apply (rejected_submission_is_noop JSONText.stringify). right. simpl. lia.
  - apply (rejected_submission_is_noop JSONText.stringify). right. simpl. lia.
Defined.

(** C5, as stated, fails on the empty id: a drop that names it returns
    before the card is looked up, so a card whose id is the empty string
    stays where it is. *)
Lemma moveCard_empty_id_counterexample :
  let s := mkState [nameless] None fresh_storage four_columns in
  "blocked" ∈ COLUMNS ∧
  id nameless ∈ id <$> cards s ∧
  column nameless ≠ "blocked" ∧
  cards (exec (handleDrop JSONText.stringify (Some "blocked") (id nameless)) s) = [nameless].
Proof.
  cbv zeta. split; [compute_done|]. split; [compute_done|]. split; [discriminate|].
  reflexivity.
Qed.

(** C5, amended: for every collection and every valid target column, a
    drop carrying a non-empty id that is in the collection sets the
    column of the first card with that id and changes nothing else, in
    that card or in any other; a drop outside a column, on an invalid
    column name, or carrying an id that is not in the collection, leaves
    the collection as it is. *)
Theorem moveCard_frame
    (JSON_stringify : JS.value → string) (s : State) (col cardId : string) :
  let s' := exec (handleDrop JSON_stringify (Some col) cardId) s in
  (col ∈ COLUMNS → cardId ≠ "" → cardId ∈ id <$> cards s →
   ∃ i c, cards s !! i = Some c ∧ id c = cardId ∧
          (∀ j c', cards s !! j = Some c' → j < i → id c' ≠ cardId) ∧
          cards s' = <[i := with_column col c]> (cards s) ∧
          length (cards s') = length (cards s) ∧
          (∀ j, j ≠ i → cards s' !! j = cards s !! j) ∧
          ∃ c', cards s' !! i = Some c' ∧ column c' = col ∧
                id c' = id c ∧ title c' = title c ∧ description c' = description c ∧
                tags c' = tags c ∧ dueDate c' = dueDate c) ∧
  (col ∉ COLUMNS → s' = s) ∧
  (cardId ∉ id <$> cards s → s' = s) ∧
  exec (handleDrop JSON_stringify None cardId) s = s.
Proof.
  intros s'. split; [|split; [|split]].
  - intros Hcol Hid Hin.
    destruct (find_card_is_Some _ _ Hin) as (i & c & Hfind).
    destruct (find_card_Some _ _ _ _ Hfind) as (Hi & Hc & Hfirst).
    assert (Hs' : cards s' = <[i := with_column col c]> (cards s)).
    { by apply cards_handleDrop_found. }
    exists i, c. split; [exact Hi|]. split; [exact Hc|]. split; [exact Hfirst|].
    split; [exact Hs'|]. rewrite Hs'. split; [apply length_insert|]. split.
    + intros j Hj. by apply list_lookup_insert_ne.
    + exists (with_column col c). split; [|by repeat split].
      apply list_lookup_insert_eq. by eapply lookup_lt_Some.
  - intros Hcol. unfold s', handleDrop, COLUMNS_includes.
    rewrite (bool_decide_eq_false_2 _ Hcol). cbn [negb]. rewrite orb_true_r. reflexivity.
  - intros Hout. apply find_card_None in Hout. unfold s', handleDrop.
    destruct (negb (JS.truthy col) || negb (COLUMNS_includes col)); [reflexivity|].
    destruct (negb (JS.truthy cardId)); [reflexivity|].
    unfold_M. simpl_state. rewrite Hout. reflexivity.
  - reflexivity.
Qed.

Lemma moveCard_frame_witness :
  let s := mkState DEFAULT_CARDS None fresh_storage four_columns in
  (∃ i c, DEFAULT_CARDS !! i = Some c ∧ id c = "7" ∧
          cards (exec (handleDrop JSONText.stringify (Some "blocked") "7") s)
            = <[i := with_column "blocked" c]> DEFAULT_CARDS) ∧
  cards (exec (handleDrop JSONText.stringify (Some "done") "7") s) = DEFAULT_CARDS ∧
  cards (exec (handleDrop JSONText.stringify (Some "blocked") "77") s) = DEFAULT_CARDS.
Proof.
  cbv zeta.
  pose (s := mkState DEFAULT_CARDS None fresh_storage four_columns).
  split; [|split].
  - destruct (moveCard_frame JSONText.stringify s "blocked" "7") as [Hmove _].
    destruct Hmove as (i & c & Hi & Hc & _ & Hs' & _).
    + compute_done.
    + discriminate.
    + compute_done.
    + exists i, c. split; [exact Hi|]. split; [exact Hc|exact Hs'].
  - destruct (moveCard_frame JSONText.stringify s "done" "7") as (_ & Hbad & _).
    fold s. rewrite Hbad; [reflexivity|compute_done].
  - destruct (moveCard_frame JSONText.stringify s "blocked" "77") as (_ & _ & Hout & _).
    fold s. rewrite Hout; [reflexivity|compute_done].
Defined.

(** A submit while [editingCardId] holds a non-empty id changes at most
    the first card with that id, and in it only title, description, tags
    and dueDate; when no card has the id, the collection is left as it
    is. *)
Lemma edit_submit_frame
    (JSON_stringify : JS.value → string) (s : State) (cardId : string) (f : Submission) :
  editingCardId s = Some cardId →
  cardId ≠ "" →
  let s' := exec (handleAddCardSubmit JSON_stringify f) s in
  (cardId ∈ id <$> cards s →
   ∃ i c c', cards s !! i = Some c ∧ id c = cardId ∧
             (∀ j x, cards s !! j = Some x → j < i → id x ≠ cardId) ∧
             cards s' = <[i := c']> (cards s) ∧
             id c' = id c ∧ column c' = column c ∧
             (accepted f = true →
              title c' = JS.trim (titleInput f) ∧
              description c' = JS.trim (descriptionInput f) ∧
              tags c' = Some (checkedTags f) ∧
              dueDate c' = JS.or_undefined (dueDate_of f)) ∧
             length (cards s') = length (cards s) ∧
             (∀ j, j ≠ i → cards s' !! j = cards s !! j)) ∧
  (cardId ∉ id <$> cards s → cards s' = cards s).
Proof.
  intros Hmode Hid s'.
  destruct (accepted f) eqn:Hacc.
  - assert (Hs' : cards s' =
        match find_card cardId (cards s) with
        | Some (i, card) =>
            <[i := with_fields (JS.trim (titleInput f)) (JS.trim (descriptionInput f))
                     (checkedTags f) (JS.or_undefined (dueDate_of f)) card]> (cards s)
        | None => cards s
        end).
    { unfold s'. rewrite (submit_in_edit_mode _ _ _ _ Hacc Hmode Hid).
      apply cards_update_existing. }
    split.
    + intros Hin. destruct (find_card_is_Some _ _ Hin) as (i & c & Hfind).
      destruct (find_card_Some _ _ _ _ Hfind) as (Hi & Hc & Hfirst).
      rewrite Hfind in Hs'.
      exists i, c. eexists. split; [exact Hi|]. split; [exact Hc|].
      split; [exact Hfirst|]. split; [exact Hs'|].
      split; [reflexivity|]. split; [reflexivity|].
      split; [intros _; by repeat split|].
      rewrite Hs'. split; [apply length_insert|].
      intros j Hj. by apply list_lookup_insert_ne.
    + intros Hout. apply find_card_None in Hout. by rewrite Hout in Hs'.
  - assert (Hs' : s' = s) by (unfold s'; by apply submit_rejected).
    rewrite Hs'. split; [|reflexivity].
    intros Hin. destruct (find_card_is_Some _ _ Hin) as (i & c & Hfind).
    destruct (find_card_Some _ _ _ _ Hfind) as (Hi & Hc & Hfirst).
    exists i, c, c. split; [exact Hi|]. split; [exact Hc|]. split; [exact Hfirst|].
    split; [symmetry; by apply list_insert_id|].
    split; [reflexivity|]. split; [reflexivity|]. split; [discriminate|].
    split; reflexivity.
Qed.

(** C7, as stated, fails when two cards carry the same id: the filter
    removes both.  Here the two cards come from two submissions that
    were given the same id, and one [deleteCard] takes the collection
    from 11 cards back to the 9 of the seed. *)
Lemma deleteCard_twins_counterexample :
  let s0 := mkState DEFAULT_CARDS None fresh_storage four_columns in
  let s1 := exec (handleAddCardSubmit JSONText.stringify learn_rust_form) s0 in
  let s2 := exec (handleAddCardSubmit JSONText.stringify learn_rust_form) s1 in
  let s3 := exec (deleteCard JSONText.stringify (id learn_rust)) s2 in
  cards s2 = DEFAULT_CARDS ++ [learn_rust; learn_rust] ∧
  length (cards s2) = 11 ∧
  length (cards s3) = 9.
Proof. cbv zeta. repeat split; by vm_compute. Qed.

Lemma filter_keeps_all (cardId : string) (cs : list Card) :
  cardId ∉ (id <$> cs) → filter (λ c, id c ≠ cardId) cs = cs.
Proof.
  induction cs as [|x cs IH]; intros Hout; [reflexivity|].
  rewrite fmap_cons in Hout. apply not_elem_of_cons in Hout as [Hx Hout].
  rewrite filter_cons_True by (intros H; by apply Hx). by rewrite IH.
Qed.

Lemma filter_leaves_no_match (cardId : string) (cs : list Card) :
  cardId ∉ (id <$> filter (λ c, id c ≠ cardId) cs).
Proof.
  rewrite list_elem_of_fmap. intros (c & Hc & Hin).
  apply list_elem_of_filter in Hin as [Hne _]. by apply Hne.
Qed.

Lemma no_match_not_elem (cardId : string) (cs : list Card) :
  filter (λ c, id c = cardId) cs = [] → cardId ∉ (id <$> cs).
Proof.
  intros Hnone. rewrite list_elem_of_fmap. intros (c & Hc & Hin).
  by apply (filter_nil_not_elem_of _ _ c Hnone).
Qed.

Lemma filter_out_the_only_match (cardId : string) (cs : list Card) :
  length (filter (λ c, id c = cardId) cs) = 1 →
  ∃ before c after, cs = before ++ c :: after ∧ id c = cardId ∧
    (cardId ∉ id <$> before) ∧ (cardId ∉ id <$> after) ∧
    before ++ after = filter (λ c, id c ≠ cardId) cs.
Proof.
  induction cs as [|x cs IH]; intros Hcount; [discriminate Hcount|].
  destruct (decide (id x = cardId)) as [Hx|Hx].
  - rewrite filter_cons_True in Hcount by exact Hx.
    simpl in Hcount. injection Hcount as Hnone. apply length_zero_iff_nil in Hnone.
    apply no_match_not_elem in Hnone.
    exists [], x, cs. split; [reflexivity|]. split; [exact Hx|].
    split; [rewrite fmap_nil; apply not_elem_of_nil|]. split; [exact Hnone|].
    rewrite filter_cons_False by (intros H; by apply H).
    symmetry. by apply filter_keeps_all.
  - rewrite filter_cons_False in Hcount by exact Hx.
    destruct (IH Hcount) as (before & c & after & -> & Hc & Hb & Ha & Hfilter).
    exists (x :: before), c, after. split; [reflexivity|]. split; [exact Hc|].
    split.
    { rewrite fmap_cons. apply not_elem_of_cons. split; [congruence|exact Hb]. }
    split; [exact Ha|].
    rewrite filter_cons_True by exact Hx. by rewrite <- Hfilter.
Qed.

(** C7, amended: [deleteCard(id)] removes every card whose id matches
    and no other, the rest keeping their order; that is exactly one card
    when exactly one card carries the id, and none when no card does.
    Calling it again with the same id leaves the collection as it is. *)
Theorem deleteCard_removes_matching
    (JSON_stringify : JS.value → string) (s : State) (cardId : string) :
  let s' := exec (deleteCard JSON_stringify cardId) s in
  (∀ c, c ∈ cards s' ↔ c ∈ cards s ∧ id c ≠ cardId) ∧
  cards s' `sublist_of` cards s ∧
  (length (filter (λ c, id c = cardId) (cards s)) = 1 →
   ∃ before c after, cards s = before ++ c :: after ∧ id c = cardId ∧
                     cards s' = before ++ after ∧
                     S (length (cards s')) = length (cards s)) ∧
  (cardId ∉ (id <$> cards s) → cards s' = cards s) ∧
  cards (exec (deleteCard JSON_stringify cardId) s') = cards s'.
Proof.
  intros s'.
  assert (Hs' : cards s' = filter (λ c, id c ≠ cardId) (cards s)).
  { apply cards_deleteCard. }
  split; [|split; [|split; [|split]]].
  - intros c. rewrite Hs', list_elem_of_filter. tauto.
  - rewrite Hs'. apply sublist_filter.
  - intros Hone.
    destruct (filter_out_the_only_match _ _ Hone)
      as (before & c & after & Hcs & Hc & _ & _ & Hfilter).
    exists before, c, after. split; [exact Hcs|]. split; [exact Hc|].
    rewrite Hs', <- Hfilter. split; [reflexivity|].
    rewrite Hcs, !length_app. simpl. lia.
  - intros Hout. rewrite Hs'. by apply filter_keeps_all.
  - rewrite cards_deleteCard, Hs'. apply filter_keeps_all, filter_leaves_no_match.
Qed.

Lemma deleteCard_removes_matching_witness :
  let s := mkState DEFAULT_CARDS None fresh_storage four_columns in
  let s' := exec (deleteCard JSONText.stringify "7") s in
  (∃ before c after, DEFAULT_CARDS = before ++ c :: after ∧ id c = "7" ∧
                     cards s' = before ++ after ∧ S (length (cards s')) = 9) ∧
  cards (exec (deleteCard JSONText.stringify "7") s') = cards s' ∧
  cards (exec (deleteCard JSONText.stringify "77") s) = DEFAULT_CARDS.
Proof.
  cbv zeta.
  pose (s := mkState DEFAULT_CARDS None fresh_storage four_columns).
  split; [|split].
  - destruct (deleteCard_removes_matching JSONText.stringify s "7")
      as (_ & _ & Hone & _).
    destruct Hone as (before & c & after & Hcs & Hc & Hs' & Hlen); [reflexivity|].
    exists before, c, after. split; [exact Hcs|]. split; [exact Hc|].
    split; [exact Hs'|exact Hlen].
  - by destruct (deleteCard_removes_matching JSONText.stringify s "7")
      as (_ & _ & _ & _ & Hagain).
  - destruct (deleteCard_removes_matching JSONText.stringify s "77")
      as (_ & _ & _ & Hout & _).
    apply Hout. compute_done.
Defined.

(** ** Columns of the cards in the store *)

Section Columns.
Variable JSON_stringify : JS.value → string.

Lemma cards_openEditModal cardId s : cards (exec (openEditModal cardId) s) = cards s.
Proof.
  unfold openEditModal. unfold_M. simpl_state.
  by destruct (find_card cardId (cards s)).
Qed.

Lemma cards_submit f s :
  cards (exec (handleAddCardSubmit JSON_stringify f) s) = cards s ∨
  (∃ c, column c = "to-learn" ∧
        cards (exec (handleAddCardSubmit JSON_stringify f) s) = cards s ++ [c]) ∨
  (∃ i c c', cards s !! i = Some c ∧ column c' = column c ∧
             cards (exec (handleAddCardSubmit JSON_stringify f) s) = <[i := c']> (cards s)).
Proof.
  destruct (accepted f) eqn:Hacc; [|left; by rewrite submit_rejected].
  destruct (editingCardId s) as [[|a cardId]|] eqn:Hmode.
  - right; left. rewrite (submit_in_add_mode _ _ _ Hacc (or_intror Hmode)).
    eexists. split; [|apply cards_push_new]. reflexivity.
  - rewrite (submit_in_edit_mode _ _ _ _ Hacc Hmode) by discriminate.
    rewrite cards_update_existing.
    destruct (find_card (String a cardId) (cards s)) as [[i c]|] eqn:Hfind; [|by left].
    right; right. apply find_card_Some in Hfind as [Hi _].
    exists i, c. eexists. split; [exact Hi|]. split; [|reflexivity]. reflexivity.
  - right; left. rewrite (submit_in_add_mode _ _ _ Hacc (or_introl Hmode)).
    eexists. split; [|apply cards_push_new]. reflexivity.
Qed.

Lemma cards_handleDrop columnId cardId s :
  cards (exec (handleDrop JSON_stringify columnId cardId) s) = cards s ∨
  ∃ col i c, col ∈ COLUMNS ∧ cards s !! i = Some c ∧
             cards (exec (handleDrop JSON_stringify columnId cardId) s)
               = <[i := with_column col c]> (cards s).
Proof.
  unfold handleDrop. destruct columnId as [col|]; [|by left].
  destruct (JS.truthy col); [|by left]. cbn [negb orb].
  unfold COLUMNS_includes. case_bool_decide as Hcol; [|by left]. cbn [negb].
  destruct (JS.truthy cardId); [|by left]. cbn [negb].
  unfold_M. simpl_state.
  destruct (find_card cardId (cards s)) as [[i c]|] eqn:Hfind; [|by left].
  right. apply find_card_Some in Hfind as [Hi _].
  exists col, i, c. split; [exact Hcol|]. split; [exact Hi|]. run; reflexivity.
Qed.

Lemma columns_valid_insert (cs : list Card) i c' :
  (∀ c, c ∈ cs → column c ∈ COLUMNS) → column c' ∈ COLUMNS →
  ∀ c, c ∈ <[i := c']> cs → column c ∈ COLUMNS.
Proof.
  intros Hcs Hc' c Hin. apply list_elem_of_lookup in Hin as [j Hj].
  apply list_lookup_insert_Some in Hj as [(_ & <- & _) | (_ & Hj)]; [exact Hc'|].
  apply Hcs. by eapply list_elem_of_lookup_2.
Qed.

(** Every handler keeps the columns valid once they are. *)
Lemma step_columns_valid s s' :
  columns_valid s → step JSON_stringify s s' → columns_valid s'.
Proof.
  unfold columns_valid. intros Hs Hstep. destruct Hstep.
  - exact Hs.
  - by rewrite cards_openEditModal.
  - exact Hs.
  - destruct (cards_submit f s) as [-> | [(c & Hc & ->) | (i & c & c' & Hi & Hc' & ->)]].
    + exact Hs.
    + intros x [Hx | ->%list_elem_of_singleton]%elem_of_app; [by apply Hs|].
      rewrite Hc. compute_done.
    + apply columns_valid_insert; [exact Hs|]. rewrite Hc'. apply Hs.
      by eapply list_elem_of_lookup_2.
  - rewrite cards_deleteCard. intros c [_ Hc]%list_elem_of_filter. by apply Hs.
  - destruct (cards_handleDrop columnId cardId s) as [-> | (col & i & c & Hcol & Hi & ->)].
    + exact Hs.
    + by apply columns_valid_insert.
Qed.

Lemma reachable_columns_valid s s' :
  columns_valid s → rtc (step JSON_stringify) s s' → columns_valid s'.
Proof. intros Hs Hreach. induction Hreach; eauto using step_columns_valid. Qed.
End Columns.

(** C1 fails on the code: on a first run (nothing stored) the store
    starts from the seed, and the seed's card ["6"] has the column
    ["complete"], which is not one of the four fixed values. *)
Theorem seed_card_outside_COLUMNS
    (JSON_parse : string → option JS.value) (JSON_stringify : JS.value → string)
    (page : gmap string (list Card)) :
  ∃ s c, init JSON_parse JSON_stringify fresh_storage page = Some s ∧
         cards s = DEFAULT_CARDS ∧
         c ∈ cards s ∧ id c = "6" ∧ column c = "complete" ∧
         (column c ∉ COLUMNS) ∧ ¬ columns_valid s.
Proof.
  exists (exec (save JSON_stringify;; renderBoard)
            (mkState DEFAULT_CARDS None fresh_storage page)).
  exists (mkCard "6" "Feature - Card Tags" "Categorize cards with tags"
            "complete" (Some ["Front-End"]) None).
  split; [reflexivity|].
  assert (Hcards : cards (exec (save JSON_stringify;; renderBoard)
                            (mkState DEFAULT_CARDS None fresh_storage page))
                   = DEFAULT_CARDS) by (run; reflexivity).
  split; [exact Hcards|]. rewrite Hcards.
  split; [compute_done|]. split; [reflexivity|]. split; [reflexivity|].
  split; [compute_done|].
  intros Hvalid. unfold columns_valid in Hvalid. rewrite Hcards in Hvalid.
  specialize (Hvalid (mkCard "6" "Feature - Card Tags" "Categorize cards with tags"
                        "complete" (Some ["Front-End"]) None)).
  revert Hvalid. cbn [column]. intros Hvalid.
  assert (Hout : "complete" ∉ COLUMNS) by compute_done.
  apply Hout, Hvalid. compute_done.
Qed.

(** ** The due-date label *)

Lemma app_empty_r (s : string) : s +:+ "" = s.
Proof.
  induction s as [|a s IH]; [reflexivity|].
  change (String a (s +:+ "") = String a s). by rewrite IH.
Qed.

Lemma Math_round_div_mul (k b : Z) : (0 < b)%Z → Math_round_div (k * b) b = k.
Proof.
  intros Hb. unfold Math_round_div. symmetry.
  apply (Z.div_unique _ _ k b); lia.
Qed.

Section DueDateFacts.
Variable Date_parse : string → option Z.
Variable now : Z.
Variable utc_offset : Z.

Lemma getDueDateLabel_empty : getDueDateLabel Date_parse now utc_offset "" = "".
Proof. reflexivity. Qed.

Lemma getDueDateLabel_invalid s :
  Date_parse s = None → getDueDateLabel Date_parse now utc_offset s = "".
Proof. intros H. unfold getDueDateLabel. rewrite H. by destruct (JS.truthy s). Qed.



End DueDateFacts.

Example getDueDateLabel_in_Berlin :
  let now := 1718445600000%Z in          (* 2024-06-15T10:00:00Z, noon at UTC+2 *)
  let utc_offset := (2 * 60 * 60 * 1000)%Z in
  getDueDateLabel Date_parse_date_only now utc_offset "2024-06-15" = "Due today" ∧
  getDueDateLabel Date_parse_date_only now utc_offset "2024-06-16" = "Due in 1 day" ∧
  getDueDateLabel Date_parse_date_only now utc_offset "2099-01-01" = "Due in 27228 days" ∧
  getDueDateLabel Date_parse_date_only now utc_offset "2024-06-14" = "1 day overdue" ∧
  getDueDateLabel Date_parse_date_only now utc_offset "2024-06-01" = "14 days overdue" ∧
  getDueDateLabel Date_parse_date_only now utc_offset "" = "" ∧
  getDueDateLabel Date_parse_date_only now utc_offset "soon" = "".
Proof. cbv zeta. repeat split; by vm_compute. Qed.

(** C9 fails on the code west of Greenwich.  At noon of 2024-06-15 in a
    zone five hours behind UTC, the date string of that same day is
    labelled as one day overdue, where the rules say "Due today", and
    the next day's as due today, where they say "Due in 1 day". *)
Theorem dueDateLabel_today_west_of_Greenwich :
  let now := 1718470800000%Z in          (* 2024-06-15T17:00:00Z *)
  let utc_offset := (-5 * 60 * 60 * 1000)%Z in
  date_only_day "2024-06-15" = Some (local_day utc_offset now) ∧
  getDueDateLabel Date_parse_date_only now utc_offset "2024-06-15" = "1 day overdue" ∧
  label_for_days 0 = "Due today" ∧
  getDueDateLabel Date_parse_date_only now utc_offset "2024-06-16" = "Due today" ∧
  label_for_days 1 = "Due in 1 day".
Proof. cbv zeta. repeat split; by vm_compute. Qed.

(** ** Rendering *)

(** Closes a goal whose hypotheses disagree on membership in a list and
    in its tail. *)
Ltac cons_contra :=
  exfalso;
  match goal with
  | H : ?k ∉ ?k :: _ |- _ => apply H; by left
  | H : ?k ∉ _ :: ?rest, H' : ?k ∈ ?rest |- _ => apply H; by right
  | H : ?k ∈ ?c :: ?rest, H' : ?k ∉ ?rest, Hne : ?c ≠ ?k |- _ =>
      apply elem_of_cons in H as [->|H]; done
  end.

Lemma collect_containers_spec (cols : list string) (b : gmap string (list Card)) :
  (∀ k, k ∈ (collect_containers cols b).1 ↔ k ∈ cols ∧ is_Some (b !! k)) ∧
  (∀ k, (collect_containers cols b).2 !! k =
        if decide (k ∈ cols) then (λ _, []) <$> b !! k else b !! k).
Proof.
  revert b. induction cols as [|col rest IH]; intros b.
  - simpl. split.
    + intros k. rewrite elem_of_nil. tauto.
    + intros k. destruct (decide (k ∈ [])) as [H|]; [by apply elem_of_nil in H|reflexivity].
  - simpl. destruct (b !! col) as [shown|] eqn:Hcol.
    + destruct (IH (<[col := []]> b)) as [IHown IHb].
      destruct (collect_containers rest (<[col := []]> b)) as [own b'] eqn:Hrec.
      simpl in *. split.
      * intros k. rewrite elem_of_cons, IHown, elem_of_cons, lookup_insert_is_Some.
        split.
        -- intros [-> | [Hk [-> | [_ Hsome]]]].
           ++ split; [by left|]. by rewrite Hcol.
           ++ split; [by left|]. by rewrite Hcol.
           ++ split; [by right|exact Hsome].
        -- intros [[-> | Hk] Hsome]; [by left|].
           right. split; [exact Hk|].
           destruct (decide (col = k)) as [->|Hne]; [by left|by right].
      * intros k. rewrite IHb, lookup_insert.
        repeat case_decide; subst; rewrite ?Hcol; try done; cons_contra.
    + destruct (IH b) as [IHown IHb]. split.
      * intros k. rewrite IHown, elem_of_cons. split.
        -- intros [Hk Hsome]. split; [by right|exact Hsome].
        -- intros [[-> | Hk] Hsome]; [|done].
           rewrite Hcol in Hsome. by destruct Hsome.
      * intros k. rewrite IHb.
        repeat case_decide; try done; [cons_contra|].
        match goal with
        | H : k ∈ col :: rest |- _ => apply elem_of_cons in H as [->|H]; [|done]
        end.
        by rewrite Hcol.
Qed.

Lemma place_cards_spec (own : list string) (cs : list Card) (b : gmap string (list Card)) :
  (∀ c, c ∈ cs → column c ∉ JS.Object_prototype_members) →
  ∃ b', place_cards own cs b = (true, b') ∧
        ∀ k, b' !! k =
             if decide (k ∈ own)
             then (λ shown, shown ++ filter (λ c, column c = k) cs) <$> b !! k
             else b !! k.
Proof.
  revert b. induction cs as [|card rest IH]; intros b Hcs.
  - exists b. split; [reflexivity|]. intros k.
    destruct (decide (k ∈ own)); [|reflexivity].
    destruct (b !! k) as [shown|]; [|reflexivity]. simpl. by rewrite app_nil_r.
  - assert (Hrest : ∀ c, c ∈ rest → column c ∉ JS.Object_prototype_members).
    { intros c Hc. apply Hcs. by right. }
    assert (Hcard : column card ∉ JS.Object_prototype_members).
    { apply Hcs. by left. }
    simpl. unfold containers_get. case_bool_decide as Hown.
    + destruct (IH (alter (λ shown, shown ++ [card]) (column card) b) Hrest)
        as (b' & Hplace & Hb').
      exists b'. split; [exact Hplace|]. intros k. rewrite Hb', lookup_alter.
      destruct (decide (k ∈ own)) as [Hk|Hk].
      * destruct (decide (column card = k)) as [<-|Hne].
        -- rewrite filter_cons_True by reflexivity.
           destruct (b !! column card) as [shown|]; [|reflexivity].
           simpl. by rewrite <- app_assoc.
        -- by rewrite filter_cons_False.
      * destruct (decide (column card = k)) as [<-|Hne]; [done|reflexivity].
    + rewrite (bool_decide_eq_false_2 _ Hcard).
      destruct (IH b Hrest) as (b' & Hplace & Hb').
      exists b'. split; [exact Hplace|]. intros k. rewrite Hb'.
      destruct (decide (k ∈ own)) as [Hk|Hk]; [|reflexivity].
      rewrite filter_cons_False; [reflexivity|]. intros <-. by apply Hown.
Qed.

(** What [renderBoard] shows when no card's column is the name of a
    member of [Object.prototype]: every container of the page that
    belongs to one of the four columns holds the cards of that column, in
    collection order, and the other containers are left alone. *)
Lemma render_by_column (cs : list Card) (b : gmap string (list Card)) :
  (∀ c, c ∈ cs → column c ∉ JS.Object_prototype_members) →
  ∃ b', render cs b = (true, b') ∧
        ∀ k, b' !! k =
             if decide (k ∈ COLUMNS)
             then (λ _, filter (λ c, column c = k) cs) <$> b !! k
             else b !! k.
Proof.
  intros Hcs. unfold render.
  destruct (collect_containers_spec COLUMNS b) as [Hown Hb0].
  destruct (collect_containers COLUMNS b) as [own b0]. simpl in Hown, Hb0.
  destruct (place_cards_spec own cs b0 Hcs) as (b' & Hplace & Hb').
  exists b'. split; [exact Hplace|]. intros k. rewrite Hb', Hb0.
  destruct (decide (k ∈ COLUMNS)) as [Hk|Hk].
  - destruct (b !! k) as [shown|] eqn:Hbk.
    + rewrite decide_True; [reflexivity|]. apply Hown. split; [exact Hk|].
      by rewrite Hbk.
    + rewrite decide_False; [reflexivity|]. intros [_ Hsome]%Hown.
      rewrite Hbk in Hsome. by destruct Hsome.
  - rewrite decide_False; [reflexivity|]. by intros [? _]%Hown.
Qed.

(** On a page with the four columns: each shows exactly its cards, and a
    card whose column is none of the four is in none of them. *)
Lemma render_four_columns (cs : list Card) (b : gmap string (list Card)) :
  (∀ col, col ∈ COLUMNS → is_Some (b !! col)) →
  (∀ c, c ∈ cs → column c ∉ JS.Object_prototype_members) →
  ∃ b', render cs b = (true, b') ∧
        (∀ col, col ∈ COLUMNS → b' !! col = Some (filter (λ c, column c = col) cs)) ∧
        (∀ c col shown, column c ∉ COLUMNS → col ∈ COLUMNS →
                        b' !! col = Some shown → c ∉ shown).
Proof.
  intros Hpage Hcs. destruct (render_by_column cs b Hcs) as (b' & Hrender & Hb').
  assert (Hcols : ∀ col, col ∈ COLUMNS →
                    b' !! col = Some (filter (λ c, column c = col) cs)).
  { intros col Hcol. rewrite Hb', decide_True by exact Hcol.
    destruct (Hpage col Hcol) as [shown ->]. reflexivity. }
  exists b'. split; [exact Hrender|]. split; [exact Hcols|].
  intros c col shown Hc Hcol Hshown. rewrite (Hcols col Hcol) in Hshown.
  injection Hshown as <-. intros [Hcc _]%list_elem_of_filter. apply Hc. by rewrite Hcc.
Qed.

(** C10 fails on the code for a column that names a member of
    [Object.prototype]: [containers["constructor"]] is truthy, so the
    card is not skipped, [appendChild] is called on something that is
    not a node, and the exception ends the rendering.  The card after
    it has a valid column and is not shown. *)
Theorem renderBoard_inherited_column :
  let s := mkState [stray; learn_rust] None fresh_storage four_columns in
  (column stray ∉ COLUMNS) ∧
  column learn_rust = "to-learn" ∧
  completes renderBoard s = false ∧
  board (exec renderBoard s) !! "to-learn" = Some [] ∧
  board (exec renderBoard (mkState [learn_rust] None fresh_storage four_columns))
    !! "to-learn" = Some [learn_rust].
Proof. cbv zeta. split; [compute_done|]. repeat split; by vm_compute. Qed.

(* ===================================================================== *)
(** * Further properties of the script *)
(* ===================================================================== *)

(** ** What one event does to the collection and to the slot *)

Section Events.
Variable JSON_stringify : JS.value → string.

Lemma submit_cards f s :
  cards (exec (handleAddCardSubmit JSON_stringify f) s) = cards s ∨
  (accepted f = true ∧
   cards (exec (handleAddCardSubmit JSON_stringify f) s) = cards s ++ [new_card f]) ∨
  (accepted f = true ∧
   ∃ i c, cards s !! i = Some c ∧
          cards (exec (handleAddCardSubmit JSON_stringify f) s)
            = <[i := edited_card f c]> (cards s)).
Proof.
  destruct (accepted f) eqn:Hacc; [|left; by rewrite submit_rejected].
  destruct (editingCardId s) as [[|a cardId]|] eqn:Hmode.
  - right; left. split; [reflexivity|].
    rewrite (submit_in_add_mode _ _ _ Hacc (or_intror Hmode)). apply cards_push_new.
  - rewrite (submit_in_edit_mode _ _ _ _ Hacc Hmode) by discriminate.
    rewrite cards_update_existing.
    destruct (find_card (String a cardId) (cards s)) as [[i c]|] eqn:Hfind; [|by left].
    right; right. split; [reflexivity|].
    apply find_card_Some in Hfind as [Hi _]. by exists i, c.
  - right; left. split; [reflexivity|].
    rewrite (submit_in_add_mode _ _ _ Hacc (or_introl Hmode)). apply cards_push_new.
Qed.

Lemma cards_modalDeleteClick confirmed s :
  cards (exec (modalDeleteClick JSON_stringify confirmed) s) = cards s ∨
  ∃ cardId, cards (exec (modalDeleteClick JSON_stringify confirmed) s)
            = filter (λ c, id c ≠ cardId) (cards s).
Proof.
  unfold modalDeleteClick. unfold exec at 1 2, mbind at 1 3, M_bind at 1 3, gets.
  destruct (editingCardId s) as [cardId|]; [|by left].
  destruct (JS.truthy cardId && confirmed); [|by left].
  right. exists cardId. unfold deleteCard. run; reflexivity.
Qed.

Lemma cards_gearClick cardId s : cards (exec (gearClick cardId) s) = cards s.
Proof.
  unfold gearClick. destruct (JS.truthy cardId); [|reflexivity].
  apply cards_openEditModal.
Qed.

(** The five things an event can do to the collection. *)
Lemma event_cards s s' :
  event JSON_stringify s s' →
  cards s' = cards s ∨
  (∃ f, accepted f = true ∧ cards s' = cards s ++ [new_card f]) ∨
  (∃ f i c, accepted f = true ∧ cards s !! i = Some c ∧
            cards s' = <[i := edited_card f c]> (cards s)) ∨
  (∃ cardId, cards s' = filter (λ c, id c ≠ cardId) (cards s)) ∨
  (∃ col i c, col ∈ COLUMNS ∧ cards s !! i = Some c ∧
              cards s' = <[i := with_column col c]> (cards s)).
Proof.
  intros [s0 s1 Hstep | s0 confirmed | s0 cardId].
  - destruct Hstep.
    + by left.
    + left. apply cards_openEditModal.
    + by left.
    + destruct (submit_cards f s0) as [H | [[Hacc H] | (Hacc & i & c & Hi & H)]].
      * by left.
      * right; left. by exists f.
      * right; right; left. by exists f, i, c.
    + right; right; right; left. exists cardId. apply cards_deleteCard.
    + destruct (cards_handleDrop JSON_stringify columnId cardId s0)
        as [H | (col & i & c & Hcol & Hi & H)].
      * by left.
      * right; right; right; right. by exists col, i, c.
  - destruct (cards_modalDeleteClick confirmed s0) as [H | [cardId H]].
    + by left.
    + right; right; right; left. by exists cardId.
  - left. apply cards_gearClick.
Qed.
End Events.

(** ** Invariants of the collection *)

Lemma elem_of_insert_inv (cs : list Card) i c' c :
  c ∈ <[i := c']> cs → c = c' ∨ c ∈ cs.
Proof.
  intros [j Hj]%list_elem_of_lookup.
  apply list_lookup_insert_Some in Hj as [(_ & <- & _) | (_ & Hj)]; [by left|].
  right. by eapply list_elem_of_lookup_2.
Qed.

Section Invariants.
Variable JSON_stringify : JS.value → string.

(** A property of cards that the three ways of writing a card keep is
    kept by every event. *)
Lemma event_preserves (P : Card → Prop) s s' :
  (∀ f, accepted f = true → P (new_card f)) →
  (∀ f c, accepted f = true → P c → P (edited_card f c)) →
  (∀ col c, col ∈ COLUMNS → P c → P (with_column col c)) →
  event JSON_stringify s s' →
  (∀ c, c ∈ cards s → P c) → ∀ c, c ∈ cards s' → P c.
Proof.
  intros Hnew Hedit Hmove Hev Hs c.
  destruct (event_cards _ _ _ Hev)
    as [-> | [(f & Hacc & ->) | [(f & i & x & Hacc & Hi & ->) |
        [(cardId & ->) | (col & i & x & Hcol & Hi & ->)]]]].
  - apply Hs.
  - intros [Hc | ->%list_elem_of_singleton]%elem_of_app; [by apply Hs|by apply Hnew].
  - intros [-> | Hc]%elem_of_insert_inv; [|by apply Hs].
    apply Hedit; [exact Hacc|]. apply Hs. by eapply list_elem_of_lookup_2.
  - intros [_ Hc]%list_elem_of_filter. by apply Hs.
  - intros [-> | Hc]%elem_of_insert_inv; [|by apply Hs].
    apply Hmove; [exact Hcol|]. apply Hs. by eapply list_elem_of_lookup_2.
Qed.

Lemma accepted_title f : accepted f = true → JS.trim (titleInput f) ≠ "".
Proof. intros [H _]%andb_true_iff. by apply truthy_true. Qed.

Lemma accepted_tags f : accepted f = true → length (checkedTags f) ≤ 2.
Proof. intros [_ H]%andb_true_iff. by apply Nat.leb_le. Qed.

Lemma or_undefined_not_empty x : JS.or_undefined x ≠ Some "".
Proof. unfold JS.or_undefined. by destruct x. Qed.

(** Whatever the user does, the columns stay among the four once they
    are: no event writes another column. *)
Theorem events_keep_columns_valid s s' :
  columns_valid s → rtc (event JSON_stringify) s s' → columns_valid s'.
Proof.
  intros Hs Hrun. induction Hrun as [|s1 s2 s3 Hev _ IH]; [exact Hs|].
  apply IH. unfold columns_valid in *.
  apply (event_preserves (λ c, column c ∈ COLUMNS) s1 s2); try done.
  intros f _. compute_done.
Qed.

(** Whatever the user does, every card keeps a non-empty id, a
    non-empty title, at most two tags and no empty due date, once all
    cards have them. *)
Theorem events_keep_cards_sound s s' :
  (∀ c, c ∈ cards s → card_sound c) →
  rtc (event JSON_stringify) s s' →
  ∀ c, c ∈ cards s' → card_sound c.
Proof.
  intros Hs Hrun. induction Hrun as [|s1 s2 s3 Hev _ IH]; [exact Hs|].
  apply IH. apply (event_preserves card_sound s1 s2); try done.
  - intros f Hacc. unfold card_sound, new_card. cbn [id title tags dueDate].
    split; [apply generateId_nonempty|]. split; [by apply accepted_title|].
    split; [|apply or_undefined_not_empty].
    intros ts [= <-]. by apply accepted_tags.
  - intros f c Hacc (Hid & _ & _ & _). unfold card_sound, edited_card, with_fields.
    cbn [id title tags dueDate].
    split; [exact Hid|]. split; [by apply accepted_title|].
    split; [|apply or_undefined_not_empty].
    intros ts [= <-]. by apply accepted_tags.
Qed.
End Invariants.

Lemma DEFAULT_CARDS_sound c : c ∈ DEFAULT_CARDS → card_sound c.
Proof.
  unfold DEFAULT_CARDS. intros Hc.
  repeat (apply elem_of_cons in Hc as [-> | Hc];
          [repeat split; try discriminate; intros ts [= <-]; simpl; lia|]).
  by apply elem_of_nil in Hc.
Qed.

(** From the seed, after a card is added and another is moved. *)
Lemma events_keep_cards_sound_witness :
  let s0 := mkState DEFAULT_CARDS None fresh_storage four_columns in
  let s1 := exec (handleAddCardSubmit JSONText.stringify learn_rust_form) s0 in
  let s2 := exec (handleDrop JSONText.stringify (Some "blocked") "7") s1 in
  Forall card_sound (cards s2).
Proof.
  cbv zeta. apply Forall_forall.
  apply (events_keep_cards_sound JSONText.stringify
           (mkState DEFAULT_CARDS None fresh_storage four_columns)).
  - exact DEFAULT_CARDS_sound.
  - eapply rtc_l; [apply event_step, step_submit|].
    apply rtc_once, event_step, step_drop.
Defined.

(** From a collection in valid columns, after a move and a deletion
    from the edit modal. *)
Lemma events_keep_columns_valid_witness :
  let s0 := mkState [learn_rust] None fresh_storage four_columns in
  let s1 := exec (handleDrop JSONText.stringify (Some "completed") (id learn_rust)) s0 in
  let s2 := exec (gearClick (id learn_rust)) s1 in
  let s3 := exec (modalDeleteClick JSONText.stringify true) s2 in
  columns_valid s3.
Proof.
  cbv zeta.
  apply (events_keep_columns_valid JSONText.stringify
           (mkState [learn_rust] None fresh_storage four_columns)).
  - intros c ->%list_elem_of_singleton. compute_done.
  - eapply rtc_l; [apply event_step, step_drop|].
    eapply rtc_l; [apply event_gear|]. apply rtc_once, event_modalDelete.
Defined.

(** ** Ids *)

Lemma ids_filter (cardId : string) (cs : list Card) :
  id <$> filter (λ c, id c ≠ cardId) cs = filter (λ x, x ≠ cardId) (id <$> cs).
Proof.
  induction cs as [|c cs IH]; [reflexivity|].
  rewrite fmap_cons. destruct (decide (id c = cardId)) as [Hc|Hc].
  - rewrite !filter_cons_False by (intros H; by apply H). exact IH.
  - rewrite !filter_cons_True by exact Hc. rewrite fmap_cons. by rewrite IH.
Qed.

Lemma ids_insert (cs : list Card) i c c' :
  cs !! i = Some c → id c' = id c → id <$> <[i := c']> cs = id <$> cs.
Proof.
  intros Hi Hid. rewrite list_fmap_insert, Hid.
  apply list_insert_id. by rewrite list_lookup_fmap, Hi.
Qed.

(** No event changes the id of a card; and the ids stay pairwise
    distinct through every event, except when a submission appends a
    card whose generated id is already in use. *)
Theorem event_keeps_ids_unique (JSON_stringify : JS.value → string) (s s' : State) :
  NoDup (id <$> cards s) →
  event JSON_stringify s s' →
  NoDup (id <$> cards s') ∨
  ∃ f, cards s' = cards s ++ [new_card f] ∧ id (new_card f) ∈ id <$> cards s.
Proof.
  intros Hs Hev.
  destruct (event_cards _ _ _ Hev)
    as [-> | [(f & Hacc & ->) | [(f & i & x & Hacc & Hi & ->) |
        [(cardId & ->) | (col & i & x & Hcol & Hi & ->)]]]].
  - by left.
  - destruct (decide (id (new_card f) ∈ id <$> cards s)) as [Hin|Hout].
    + right. by exists f.
    + left. rewrite fmap_app. apply NoDup_app. split; [exact Hs|]. split.
      * intros y Hy ->%list_elem_of_singleton. by apply Hout.
      * apply NoDup_singleton.
  - left. by rewrite (ids_insert _ _ x).
  - left. rewrite ids_filter. by apply NoDup_filter.
  - left. by rewrite (ids_insert _ _ x).
Qed.

Lemma event_keeps_ids_unique_witness :
  let s0 := mkState DEFAULT_CARDS None fresh_storage four_columns in
  let s1 := exec (handleAddCardSubmit JSONText.stringify learn_rust_form) s0 in
  NoDup (id <$> cards s1).
Proof.
  cbv zeta.
  destruct (event_keeps_ids_unique JSONText.stringify
              (mkState DEFAULT_CARDS None fresh_storage four_columns)
              (exec (handleAddCardSubmit JSONText.stringify learn_rust_form)
                 (mkState DEFAULT_CARDS None fresh_storage four_columns)))
    as [H | (f & Hf & Hin)].
  - compute_done.
  - apply event_step, step_submit.
  - exact H.
  - exfalso.
    assert (Hcards : cards (exec (handleAddCardSubmit JSONText.stringify learn_rust_form)
                              (mkState DEFAULT_CARDS None fresh_storage four_columns))
                     = DEFAULT_CARDS ++ [learn_rust]) by (by vm_compute).
    rewrite Hcards in Hf. cbn [cards] in Hf, Hin.
    apply app_inv_head in Hf.
    assert (Hid : Some (id learn_rust) = Some (id (new_card f))).
    { change (id <$> [learn_rust] !! 0 = id <$> [new_card f] !! 0). by rewrite Hf. }
    injection Hid as Hid. unfold new_card in Hin. cbn [id] in Hin.
    rewrite <- Hid in Hin. revert Hin. compute_done.
Defined.

(** ** The slot and the collection *)

Section Persistence.
Variable JSON_parse : string → option JS.value.
Variable JSON_stringify : JS.value → string.

Lemma persisted_write_through cs s :
  persisted JSON_stringify s (exec (modify (set_cards cs);; save JSON_stringify;; renderBoard) s).
Proof. right. run; reflexivity. Qed.

Lemma persisted_update_existing cardId t d ts due s :
  persisted JSON_stringify s (exec (update_existing JSON_stringify cardId t d ts due) s).
Proof.
  unfold update_existing, persisted. unfold_M. simpl_state.
  destruct (find_card cardId (cards s)) as [[i card]|]; [|by left].
  right. run; reflexivity.
Qed.

Lemma persisted_push_new f t d ts due s :
  persisted JSON_stringify s (exec (push_new JSON_stringify f t d ts due) s).
Proof. right. unfold push_new. run; reflexivity. Qed.

Lemma persisted_deleteCard cardId s :
  persisted JSON_stringify s (exec (deleteCard JSON_stringify cardId) s).
Proof. right. unfold deleteCard. run; reflexivity. Qed.

Lemma persisted_openEditModal cardId s : persisted JSON_stringify s (exec (openEditModal cardId) s).
Proof.
  left. unfold openEditModal. unfold_M. simpl_state.
  by destruct (find_card cardId (cards s)).
Qed.

Lemma persisted_submit f s :
  persisted JSON_stringify s (exec (handleAddCardSubmit JSON_stringify f) s).
Proof.
  destruct (accepted f) eqn:Hacc; [|rewrite submit_rejected by exact Hacc; by left].
  destruct (editingCardId s) as [[|a cardId]|] eqn:Hmode.
  - rewrite (submit_in_add_mode _ _ _ Hacc (or_intror Hmode)). apply persisted_push_new.
  - rewrite (submit_in_edit_mode _ _ _ _ Hacc Hmode) by discriminate.
    apply persisted_update_existing.
  - rewrite (submit_in_add_mode _ _ _ Hacc (or_introl Hmode)). apply persisted_push_new.
Qed.

Lemma persisted_handleDrop columnId cardId s :
  persisted JSON_stringify s (exec (handleDrop JSON_stringify columnId cardId) s).
Proof.
  unfold handleDrop. destruct columnId as [col|]; [|by left].
  destruct (negb (JS.truthy col) || negb (COLUMNS_includes col)); [by left|].
  destruct (negb (JS.truthy cardId)); [by left|].
  unfold persisted. unfold_M. simpl_state.
  destruct (find_card cardId (cards s)) as [[i c]|]; [|by left].
  right. run; reflexivity.
Qed.

Lemma modalDeleteClick_run confirmed s :
  exec (modalDeleteClick JSON_stringify confirmed) s =
  match editingCardId s with
  | Some cardId =>
      if JS.truthy cardId && confirmed
      then exec (deleteCard JSON_stringify cardId;; closeModal) s
      else s
  | None => s
  end.
Proof.
  unfold modalDeleteClick, exec. unfold mbind at 1, M_bind at 1, gets. cbn [fst snd].
  destruct (editingCardId s) as [cardId|]; [|reflexivity].
  by destruct (JS.truthy cardId && confirmed).
Qed.

Lemma persisted_modalDeleteClick confirmed s :
  persisted JSON_stringify s (exec (modalDeleteClick JSON_stringify confirmed) s).
Proof.
  rewrite modalDeleteClick_run.
  destruct (editingCardId s) as [cardId|]; [|by left].
  destruct (JS.truthy cardId && confirmed); [|by left].
  right. unfold deleteCard. run; reflexivity.
Qed.

Lemma event_persisted s s' :
  event JSON_stringify s s' → persisted JSON_stringify s s'.
Proof.
  intros [s0 s1 Hstep | s0 confirmed | s0 cardId].
  - destruct Hstep.
    + by left.
    + apply persisted_openEditModal.
    + by left.
    + apply persisted_submit.
    + apply persisted_deleteCard.
    + apply persisted_handleDrop.
  - apply persisted_modalDeleteClick.
  - unfold gearClick. destruct (JS.truthy cardId); [|by left].
    apply persisted_openEditModal.
Qed.

(** As long as the storage accepts the writes, the slot holds the text
    of the collection in memory after every event. *)
Theorem event_keeps_in_sync s s' :
  in_sync JSON_stringify s →
  event JSON_stringify s s' →
  is_Some (setItem STORAGE_KEY (JSON_stringify (cards_document (cards s'))) (storage s)) →
  in_sync JSON_stringify s'.
Proof.
  intros Hs Hev [st' Hset]. unfold in_sync in *.
  destruct (event_persisted _ _ Hev) as [[-> ->] | ->]; [exact Hs|].
  unfold saveToStorage. rewrite Hset. by eapply getItem_setItem.
Qed.

Lemma load_cards_of_synced_slot s :
  in_sync JSON_stringify s →
  cards s ≠ [] →
  JSON_stringify (cards_document (cards s)) ≠ "" →
  JSON_parse (JSON_stringify (cards_document (cards s))) = Some (cards_document (cards s)) →
  load_cards JSON_parse (storage s) = Some (cards s).
Proof.
  intros Hs Hne Htext Hcodec. unfold load_cards. unfold in_sync in Hs.
  destruct (cards s) as [|c cs] eqn:Hcs; [done|].
  pose proof (loadFromStorage_array JSON_parse _ _ _ _ Hs Htext Hcodec) as Hload.
  rewrite Hload. apply (mapM_as_card_to_value (c :: cs)).
Qed.

(** What the user sees after a reload is what was there before it:
    when the slot mirrors the collection, and the write of an event is
    accepted, loading after the event gives the collection the event
    left, if it is not empty.  (The JSON codec is taken to print a
    non-empty text for it and to parse that text back.) *)
Theorem reload_after_event s s' :
  in_sync JSON_stringify s →
  event JSON_stringify s s' →
  is_Some (setItem STORAGE_KEY (JSON_stringify (cards_document (cards s'))) (storage s)) →
  cards s' ≠ [] →
  JSON_stringify (cards_document (cards s')) ≠ "" →
  JSON_parse (JSON_stringify (cards_document (cards s'))) = Some (cards_document (cards s')) →
  load_cards JSON_parse (storage s') = Some (cards s').
Proof.
  intros Hs Hev [st' Hset] Hne Htext Hcodec.
  apply load_cards_of_synced_slot; try done.
  unfold in_sync in *.
  destruct (event_persisted _ _ Hev) as [[-> ->] | ->]; [exact Hs|].
  unfold saveToStorage. rewrite Hset. by eapply getItem_setItem.
Qed.

(** When the slot holds the text of the empty collection, loading gives
    the seed: deleting every card brings the 9 seed cards back at the
    next start. *)
Theorem reload_of_empty_collection_gives_seed s :
  in_sync JSON_stringify s →
  cards s = [] →
  JSON_parse (JSON_stringify (cards_document [])) = Some (cards_document []) →
  loadFromStorage JSON_parse (storage s) = seed_values ∧
  load_cards JSON_parse (storage s) = Some DEFAULT_CARDS.
Proof.
  intros Hs Hcs Hcodec. unfold in_sync in Hs. rewrite Hcs in Hs.
  assert (Hload : loadFromStorage JSON_parse (storage s) = seed_values).
  { unfold loadFromStorage. rewrite Hs.
    destruct (JS.truthy _); [|reflexivity]. simpl. rewrite Hcodec. reflexivity. }
  split; [exact Hload|]. unfold load_cards. rewrite Hload. apply seed_values_as_cards.
Qed.
End Persistence.

(** A collection of one card, saved. *)
Lemma event_keeps_in_sync_witness :
  let s := mkState [learn_rust] None
             (saveToStorage JSONText.stringify [learn_rust] fresh_storage) four_columns in
  in_sync JSONText.stringify
    (exec (handleDrop JSONText.stringify (Some "blocked") (id learn_rust)) s).
Proof.
  cbv zeta.
  apply (event_keeps_in_sync JSONText.stringify
           (mkState [learn_rust] None
              (saveToStorage JSONText.stringify [learn_rust] fresh_storage) four_columns)).
  - by vm_compute.
  - apply event_step, step_drop.
  - vm_compute. eauto.
Defined.

(** A card is moved, and the page is loaded again. *)
Lemma reload_after_event_witness :
  let s := mkState [learn_rust] None
             (saveToStorage JSONText.stringify [learn_rust] fresh_storage) four_columns in
  let s' := exec (handleDrop JSONText.stringify (Some "blocked") (id learn_rust)) s in
  load_cards (JSONText.parse_only (cards_document [with_column "blocked" learn_rust]))
    (storage s')
  = Some [with_column "blocked" learn_rust].
Proof.
  cbv zeta.
  pose (s := mkState [learn_rust] None
               (saveToStorage JSONText.stringify [learn_rust] fresh_storage) four_columns).
  assert (Hcards : cards (exec (handleDrop JSONText.stringify (Some "blocked")
                                  (id learn_rust)) s)
                   = [with_column "blocked" learn_rust]) by (by vm_compute).
  fold s. rewrite <- Hcards.
  apply (reload_after_event
           (JSONText.parse_only (cards_document [with_column "blocked" learn_rust]))
           JSONText.stringify s).
  - by vm_compute.
  - apply event_step, step_drop.
  - vm_compute. eauto.
  - rewrite Hcards. discriminate.
  - rewrite Hcards. vm_compute. discriminate.
  - rewrite Hcards. by vm_compute.
Defined.

(** The last card is deleted, and the page is loaded again. *)
Lemma reload_of_empty_collection_gives_seed_witness :
  let s := mkState [learn_rust] None
             (saveToStorage JSONText.stringify [learn_rust] fresh_storage) four_columns in
  let s' := exec (deleteCard JSONText.stringify (id learn_rust)) s in
  cards s' = [] ∧
  load_cards (JSONText.parse_only (cards_document [])) (storage s') = Some DEFAULT_CARDS.
Proof.
  cbv zeta. split; [by vm_compute|].
  apply (reload_of_empty_collection_gives_seed (JSONText.parse_only (cards_document []))
           JSONText.stringify).
  - by vm_compute.
  - by vm_compute.
  - by vm_compute.
Defined.

(** ** Starting the page *)

Section Start.
Variable JSON_parse : string → option JS.value.
Variable JSON_stringify : JS.value → string.

(** The board never starts empty: whatever the slot holds, what is
    loaded has at least one element. *)
Theorem loadFromStorage_never_empty st : loadFromStorage JSON_parse st ≠ [].
Proof.
  destruct (loadFromStorage_cases JSON_parse st) as [-> | (raw & v & vs & _ & _ & _ & ->)];
    discriminate.
Qed.

Lemma init_Some st page s :
  init JSON_parse JSON_stringify st page = Some s →
  load_cards JSON_parse st = Some (cards s) ∧
  cards s ≠ [] ∧
  storage s = saveToStorage JSON_stringify (cards s) st.
Proof.
  unfold init. destruct (load_cards JSON_parse st) as [cs|] eqn:Hload; [|discriminate].
  cbn [mbind option_bind]. intros [= <-].
  assert (Hcards : cards (exec (save JSON_stringify;; renderBoard)
                            (mkState cs None st page)) = cs) by (run; reflexivity).
  assert (Hstorage : storage (exec (save JSON_stringify;; renderBoard)
                                (mkState cs None st page))
                     = saveToStorage JSON_stringify cs st) by (run; reflexivity).
  rewrite Hcards, Hstorage. split; [reflexivity|]. split; [|reflexivity].
  intros ->. unfold load_cards in Hload. apply length_mapM in Hload.
  apply length_zero_iff_nil in Hload.
  destruct (loadFromStorage_cases JSON_parse st) as [H | (raw & v & vs & _ & _ & _ & H)];
    rewrite H in Hload; discriminate Hload.
Qed.

(** Starting the page writes back what it loaded (the seed, on a first
    run); so, when that write is accepted, a second start loads the
    cards the first one showed. *)
Theorem init_then_reload st page s :
  init JSON_parse JSON_stringify st page = Some s →
  is_Some (setItem STORAGE_KEY (JSON_stringify (cards_document (cards s))) st) →
  JSON_stringify (cards_document (cards s)) ≠ "" →
  JSON_parse (JSON_stringify (cards_document (cards s))) = Some (cards_document (cards s)) →
  in_sync JSON_stringify s ∧
  load_cards JSON_parse (storage s) = Some (cards s).
Proof.
  intros (Hload & Hne & Hstorage)%init_Some [st' Hset] Htext Hcodec.
  assert (Hsync : in_sync JSON_stringify s).
  { unfold in_sync. rewrite Hstorage. unfold saveToStorage. rewrite Hset.
    by eapply getItem_setItem. }
  split; [exact Hsync|].
  by apply (load_cards_of_synced_slot JSON_parse JSON_stringify).
Qed.
End Start.

(** A first run, and the start after it. *)
Lemma init_then_reload_witness :
  ∃ s, init (JSONText.parse_only (cards_document DEFAULT_CARDS))
         JSONText.stringify fresh_storage four_columns = Some s ∧
       cards s = DEFAULT_CARDS ∧
       load_cards (JSONText.parse_only (cards_document DEFAULT_CARDS)) (storage s)
       = Some DEFAULT_CARDS.
Proof.
  assert (Hinit : ∃ s, init (JSONText.parse_only (cards_document DEFAULT_CARDS))
                         JSONText.stringify fresh_storage four_columns = Some s ∧
                       cards s = DEFAULT_CARDS).
  { eexists. split; [reflexivity|]. by vm_compute. }
  destruct Hinit as (s & Hinit & Hcards).
  exists s. split; [exact Hinit|]. split; [exact Hcards|].
  destruct (init_then_reload (JSONText.parse_only (cards_document DEFAULT_CARDS))
              JSONText.stringify fresh_storage four_columns s Hinit) as [_ Hreload].
  - rewrite Hcards. vm_compute. eauto.
  - rewrite Hcards. vm_compute. discriminate.
  - rewrite Hcards. by vm_compute.
  - by rewrite Hcards in Hreload.
Defined.

(** ** How the operations compose *)

Lemma find_card_insert cardId (cs : list Card) i c c' :
  find_card cardId cs = Some (i, c) → id c' = id c →
  find_card cardId (<[i := c']> cs) = Some (i, c').
Proof.
  intros (Hi & Hc & Hfirst)%find_card_Some Hid. unfold find_card.
  apply list_find_Some. split; [|split].
  - apply list_lookup_insert_eq. by eapply lookup_lt_Some.
  - by rewrite Hid.
  - intros j y Hj Hlt. rewrite list_lookup_insert_ne in Hj by lia. by eapply Hfirst.
Qed.

Lemma find_card_app_new cardId (cs : list Card) c :
  cardId ∉ (id <$> cs) → id c = cardId →
  find_card cardId (cs ++ [c]) = Some (length cs, c).
Proof.
  intros Hout%find_card_None Hc. unfold find_card in *.
  rewrite list_find_app_r by exact Hout. simpl.
  rewrite decide_True by exact Hc. reflexivity.
Qed.

Lemma with_column_with_column col1 col2 c :
  with_column col2 (with_column col1 c) = with_column col2 c.
Proof. reflexivity. Qed.

Section Composition.
Variable JSON_stringify : JS.value → string.

(** What a drop does to the collection, as a function of the
    collection alone. *)
Lemma cards_handleDrop_run col cardId s :
  cards (exec (handleDrop JSON_stringify (Some col) cardId) s) =
  if JS.truthy col && COLUMNS_includes col && JS.truthy cardId
  then match find_card cardId (cards s) with
       | Some (i, c) => <[i := with_column col c]> (cards s)
       | None => cards s
       end
  else cards s.
Proof.
  unfold handleDrop.
  destruct (JS.truthy col); [|reflexivity].
  destruct (COLUMNS_includes col); [|reflexivity].
  destruct (JS.truthy cardId); [|reflexivity]. cbn [negb orb andb].
  unfold_M. simpl_state.
  destruct (find_card cardId (cards s)) as [[i c]|]; [|reflexivity].
  run; reflexivity.
Qed.

(** Of two drops of the same card, the last one decides: dropping on
    [col1] and then on a valid [col2] leaves the collection a single drop
    on [col2] leaves. *)
Theorem last_drop_wins s col1 col2 cardId :
  col2 ∈ COLUMNS →
  cards (exec (handleDrop JSON_stringify (Some col2) cardId)
           (exec (handleDrop JSON_stringify (Some col1) cardId) s))
  = cards (exec (handleDrop JSON_stringify (Some col2) cardId) s).
Proof.
  intros Hcol2. rewrite !cards_handleDrop_run.
  assert (Hinc : COLUMNS_includes col2 = true) by (by apply bool_decide_eq_true_2).
  rewrite (COLUMNS_truthy col2 Hcol2), !Hinc. cbn [andb].
  destruct (JS.truthy cardId) eqn:Hid.
  - rewrite andb_true_r.
    destruct (JS.truthy col1 && COLUMNS_includes col1); [|reflexivity].
    destruct (find_card cardId (cards s)) as [[i c]|] eqn:Hfind.
    + rewrite (find_card_insert _ _ _ _ (with_column col1 c) Hfind) by reflexivity.
      by rewrite list_insert_insert_eq.
    + by rewrite Hfind.
  - by rewrite andb_false_r.
Qed.
End Composition.

Lemma last_drop_wins_witness :
  let s := mkState DEFAULT_CARDS None fresh_storage four_columns in
  cards (exec (handleDrop JSONText.stringify (Some "blocked") "7")
           (exec (handleDrop JSONText.stringify (Some "in-progress") "7") s))
  = cards (exec (handleDrop JSONText.stringify (Some "blocked") "7") s).
Proof. cbv zeta. apply last_drop_wins. compute_done. Defined.

Section Flows.
Variable JSON_stringify : JS.value → string.

(** A card added through the form can be moved right away: when its
    generated id is not already in use, a drop carrying that id on a
    valid column moves the new card, the last of the collection, and no
    other. *)
Theorem added_card_can_be_moved s f col :
  editingCardId s = None →
  accepted f = true →
  id (new_card f) ∉ (id <$> cards s) →
  col ∈ COLUMNS →
  cards (exec (handleDrop JSON_stringify (Some col) (id (new_card f)))
           (exec (handleAddCardSubmit JSON_stringify f) s))
  = cards s ++ [with_column col (new_card f)].
Proof.
  intros Hmode Hacc Hfresh Hcol.
  assert (Hadd : cards (exec (handleAddCardSubmit JSON_stringify f) s)
                 = cards s ++ [new_card f]).
  { rewrite (submit_in_add_mode _ _ _ Hacc (or_introl Hmode)). apply cards_push_new. }
  rewrite (cards_handleDrop_found _ col (id (new_card f)) (length (cards s)) (new_card f)).
  - rewrite Hadd.
    replace (length (cards s)) with (length (cards s) + 0) by lia.
    by rewrite insert_app_r.
  - exact Hcol.
  - apply generateId_nonempty.
  - rewrite Hadd. by apply find_card_app_new.
Qed.

Lemma submit_edit_run f s cardId :
  accepted f = true → editingCardId s = Some cardId → cardId ≠ "" →
  handleAddCardSubmit JSON_stringify f s =
  update_existing JSON_stringify cardId (JS.trim (titleInput f))
    (JS.trim (descriptionInput f)) (checkedTags f) (dueDate_of f) s.
Proof.
  intros [H1 H2]%submit_accepted Hmode Hid%truthy_true. unfold handleAddCardSubmit.
  rewrite H1, H2. cbn [negb].
  unfold mbind at 1, M_bind at 1, gets. rewrite Hmode, Hid. reflexivity.
Qed.

Lemma openEditModal_found cardId i c s :
  find_card cardId (cards s) = Some (i, c) →
  exec (openEditModal cardId) s = set_editingCardId (Some cardId) s.
Proof. intros H. unfold openEditModal. unfold_M. simpl_state. by rewrite H. Qed.

(** The edit flow: clicking the gear of a card and submitting an
    accepted form rewrites that card's title, description, tags and due
    date, and, when rendering completes, leaves the modal in add mode;
    clicking the modal's delete button instead and confirming removes
    the cards with that id; declining the confirmation changes
    nothing. *)
Theorem edit_modal_flow s cardId i c f :
  cardId ≠ "" →
  find_card cardId (cards s) = Some (i, c) →
  accepted f = true →
  let s1 := exec (gearClick cardId) s in
  editingCardId s1 = Some cardId ∧
  cards (exec (handleAddCardSubmit JSON_stringify f) s1)
    = <[i := edited_card f c]> (cards s) ∧
  (completes (handleAddCardSubmit JSON_stringify f) s1 = true →
   editingCardId (exec (handleAddCardSubmit JSON_stringify f) s1) = None) ∧
  cards (exec (modalDeleteClick JSON_stringify true) s1)
    = filter (λ x, id x ≠ cardId) (cards s) ∧
  exec (modalDeleteClick JSON_stringify false) s1 = s1.
Proof.
  intros Hid Hfind Hacc s1.
  assert (Hs1 : s1 = set_editingCardId (Some cardId) s).
  { unfold s1, gearClick. rewrite (proj2 (truthy_true cardId) Hid).
    by eapply openEditModal_found. }
  assert (Hmode : editingCardId s1 = Some cardId) by (by rewrite Hs1).
  assert (Hcards : cards s1 = cards s) by (by rewrite Hs1).
  split; [exact Hmode|]. split; [|split; [|split]].
  - rewrite (submit_in_edit_mode _ _ _ _ Hacc Hmode Hid), cards_update_existing.
    by rewrite Hcards, Hfind.
  - unfold completes, exec.
    rewrite (submit_edit_run f s1 cardId Hacc Hmode Hid). rewrite Hs1.
    unfold update_existing. unfold_M. simpl_state. rewrite Hfind.
    run; [reflexivity|discriminate].
  - rewrite modalDeleteClick_run, Hmode, (proj2 (truthy_true cardId) Hid). cbn [andb].
    unfold deleteCard. run; by rewrite Hcards.
  - rewrite modalDeleteClick_run, Hmode, andb_false_r. reflexivity.
Qed.

(** Deleting leaves no card with the id, and deletions commute: the
    collection after deleting two ids does not depend on the order. *)
Theorem deleteCard_composes s a b :
  (a ∉ id <$> cards (exec (deleteCard JSON_stringify a) s)) ∧
  cards (exec (deleteCard JSON_stringify a) (exec (deleteCard JSON_stringify b) s))
  = cards (exec (deleteCard JSON_stringify b) (exec (deleteCard JSON_stringify a) s)).
Proof.
  split.
  - rewrite cards_deleteCard. apply filter_leaves_no_match.
  - rewrite !cards_deleteCard, !list_filter_filter.
    apply list_filter_iff. intros c. tauto.
Qed.
End Flows.

Lemma added_card_can_be_moved_witness :
  let s := mkState DEFAULT_CARDS None fresh_storage four_columns in
  cards (exec (handleDrop JSONText.stringify (Some "in-progress") (id learn_rust))
           (exec (handleAddCardSubmit JSONText.stringify learn_rust_form) s))
  = DEFAULT_CARDS ++ [with_column "in-progress" learn_rust].
Proof.
  cbv zeta.
  apply (added_card_can_be_moved JSONText.stringify
           (mkState DEFAULT_CARDS None fresh_storage four_columns) learn_rust_form).
  - reflexivity.
  - by vm_compute.
  - compute_done.
  - compute_done.
Defined.

Lemma edit_modal_flow_witness :
  let s := mkState DEFAULT_CARDS None fresh_storage four_columns in
  let s1 := exec (gearClick "7") s in
  ∃ i c, DEFAULT_CARDS !! i = Some c ∧ id c = "7" ∧
         cards (exec (handleAddCardSubmit JSONText.stringify learn_rust_form) s1)
         = <[i := edited_card learn_rust_form c]> DEFAULT_CARDS.
Proof.
  cbv zeta.
  destruct (find_card_is_Some "7" DEFAULT_CARDS) as (i & c & Hfind); [compute_done|].
  destruct (find_card_Some _ _ _ _ Hfind) as (Hi & Hc & _).
  exists i, c. split; [exact Hi|]. split; [exact Hc|].
  destruct (edit_modal_flow JSONText.stringify
              (mkState DEFAULT_CARDS None fresh_storage four_columns)
              "7" i c learn_rust_form) as (_ & Hedit & _).
  - discriminate.
  - exact Hfind.
  - by vm_compute.
  - exact Hedit.
Defined.

(** ** More on rendering *)

Lemma COLUMNS_not_inherited k : k ∈ COLUMNS → k ∉ JS.Object_prototype_members.
Proof.
  unfold COLUMNS. intros H.
  repeat (apply elem_of_cons in H as [-> | H]; [compute_done|]).
  by apply elem_of_nil in H.
Qed.

Lemma place_cards_completes (own : list string) (cs : list Card)
    (b : gmap string (list Card)) :
  (∀ k, k ∈ own → k ∉ JS.Object_prototype_members) →
  (place_cards own cs b).1 = true →
  ∀ c, c ∈ cs → column c ∉ JS.Object_prototype_members.
Proof.
  intros Hown. revert b. induction cs as [|card rest IH]; intros b Hok c Hc.
  - by apply elem_of_nil in Hc.
  - simpl in Hok. unfold containers_get in Hok.
    case_bool_decide as Hin.
    + apply elem_of_cons in Hc as [-> | Hc]; [by apply Hown|]. by eapply IH.
    + case_bool_decide as Hproto; [discriminate Hok|].
      apply elem_of_cons in Hc as [-> | Hc]; [exact Hproto|]. by eapply IH.
Qed.

Lemma render_ok_no_inherited (cs : list Card) (b : gmap string (list Card)) :
  (render cs b).1 = true → ∀ c, c ∈ cs → column c ∉ JS.Object_prototype_members.
Proof.
  unfold render.
  destruct (collect_containers_spec COLUMNS b) as [Hown _].
  destruct (collect_containers COLUMNS b) as [own b0]. simpl in Hown.
  apply place_cards_completes. intros k [Hk _]%Hown. by apply COLUMNS_not_inherited.
Qed.

(** [renderBoard] runs to its end exactly when no card's column is the
    name of a member of [Object.prototype]; a column that is merely
    unknown never stops it. *)
Theorem render_completes_iff (cs : list Card) (b : gmap string (list Card)) :
  (render cs b).1 = true ↔ ∀ c, c ∈ cs → column c ∉ JS.Object_prototype_members.
Proof.
  split; [apply render_ok_no_inherited|].
  intros Hcs. destruct (render_by_column cs b Hcs) as (b' & -> & _). reflexivity.
Qed.

(** Rendering neither adds nor removes a container, and rendering again
    changes nothing. *)
Theorem render_idempotent (cs : list Card) (b b' : gmap string (list Card)) :
  render cs b = (true, b') →
  dom b' = dom b ∧ render cs b' = (true, b').
Proof.
  intros Hrender.
  assert (Hcs : ∀ c, c ∈ cs → column c ∉ JS.Object_prototype_members).
  { apply (render_ok_no_inherited cs b). by rewrite Hrender. }
  destruct (render_by_column cs b Hcs) as (b1 & Hr1 & Hb1).
  rewrite Hrender in Hr1. injection Hr1 as <-.
  split.
  - apply set_eq. intros k. rewrite !elem_of_dom, Hb1.
    destruct (decide (k ∈ COLUMNS)); [|reflexivity]. by rewrite fmap_is_Some.
  - destruct (render_by_column cs b' Hcs) as (b2 & Hr2 & Hb2).
    rewrite Hr2. f_equal. apply map_eq. intros k. rewrite Hb2, Hb1.
    destruct (decide (k ∈ COLUMNS)); [|reflexivity]. by destruct (b !! k).
Qed.

Lemma render_idempotent_witness :
  ∃ b', render DEFAULT_CARDS four_columns = (true, b') ∧
        dom b' = dom four_columns ∧ render DEFAULT_CARDS b' = (true, b').
Proof.
  destruct (render DEFAULT_CARDS four_columns) as [ok b'] eqn:Hrender.
  assert (Hok : ok = true).
  { change ok with (ok, b').1. rewrite <- Hrender. by vm_compute. }
  subst ok. exists b'. split; [reflexivity|].
  apply (render_idempotent DEFAULT_CARDS four_columns b' Hrender).
Defined.

(** The seed on a page with the four columns: the card in the column
    ["complete"] is in none of them. *)
Lemma render_four_columns_witness :
  ∃ b', render DEFAULT_CARDS four_columns = (true, b') ∧
        b' !! "to-learn" = Some (filter (λ c, column c = "to-learn") DEFAULT_CARDS) ∧
        (∀ c shown, column c = "complete" → b' !! "completed" = Some shown → c ∉ shown).
Proof.
  destruct (render_four_columns DEFAULT_CARDS four_columns) as (b' & Hrender & Hcols & Hnone).
  - intros col Hcol. unfold COLUMNS in Hcol.
    repeat (apply elem_of_cons in Hcol as [-> | Hcol]; [by vm_compute; eauto|]).
    by apply elem_of_nil in Hcol.
  - intros c Hc. unfold DEFAULT_CARDS in Hc.
    repeat (apply elem_of_cons in Hc as [-> | Hc]; [compute_done|]).
    by apply elem_of_nil in Hc.
  - exists b'. split; [exact Hrender|]. split; [apply Hcols; compute_done|].
    intros c shown Hc. apply Hnone; [rewrite Hc|]; compute_done.
Defined.

(** ** The tag checkboxes *)

Lemma checked_boxes_fmap (g : Checkbox → Checkbox) (cbs : list Checkbox) :
  (∀ cb, cb_checked (g cb) = cb_checked cb) →
  length (checked_boxes (g <$> cbs)) = length (checked_boxes cbs).
Proof.
  intros Hg. unfold checked_boxes. induction cbs as [|cb cbs IH]; [reflexivity|].
  rewrite fmap_cons, !filter_cons, Hg.
  destruct (decide (cb_checked cb = true)); simpl; by rewrite IH.
Qed.

Lemma restyle_checked n cb : cb_checked (restyle n cb) = cb_checked cb.
Proof. unfold restyle. by destruct (negb (cb_checked cb) && (2 <=? n)). Qed.

Lemma restyle_restyle n cb : restyle n (restyle n cb) = restyle n cb.
Proof.
  unfold restyle. destruct cb as [v [] d o u]; cbn [cb_checked negb andb]; [reflexivity|].
  destruct (2 <=? n); reflexivity.
Qed.

Lemma checked_boxes_update cbs :
  length (checked_boxes (updateTagCheckboxes cbs)) = length (checked_boxes cbs).
Proof. apply checked_boxes_fmap. intros cb. apply restyle_checked. Qed.

Lemma updateTagCheckboxes_twice cbs :
  updateTagCheckboxes (updateTagCheckboxes cbs) = updateTagCheckboxes cbs.
Proof.
  unfold updateTagCheckboxes at 1. cbv zeta. rewrite checked_boxes_update.
  unfold updateTagCheckboxes. cbv zeta. rewrite <- list_fmap_compose.
  apply list_fmap_ext. intros i cb _. apply restyle_restyle.
Qed.

Lemma checked_boxes_toggle (cbs : list Checkbox) i cb :
  cbs !! i = Some cb →
  length (checked_boxes (<[i := toggled cb]> cbs)) =
  if cb_checked cb then length (checked_boxes cbs) - 1
  else S (length (checked_boxes cbs)).
Proof.
  intros Hi. pose proof (take_drop_middle cbs i cb Hi) as Hcbs.
  rewrite insert_take_drop by (by eapply lookup_lt_Some).
  set (l1 := take i cbs) in *. set (l2 := drop (S i) cbs) in *.
  clearbody l1 l2. subst cbs.
  unfold checked_boxes. rewrite !filter_app, !filter_cons, !length_app.
  unfold toggled. simpl. destruct (cb_checked cb); simpl; lia.
Qed.

Lemma capped_update cbs :
  length (checked_boxes cbs) ≤ 2 → capped (updateTagCheckboxes cbs).
Proof.
  intros H. split; [by rewrite checked_boxes_update|apply updateTagCheckboxes_twice].
Qed.

Lemma capped_click i cbs : capped cbs → capped (clickCheckbox i cbs).
Proof.
  intros [Hcount Hfix]. unfold clickCheckbox.
  destruct (cbs !! i) as [cb|] eqn:Hi; [|by split].
  destruct (cb_disabled cb) eqn:Hdis; [by split|].
  apply capped_update. rewrite (checked_boxes_toggle cbs i cb Hi).
  destruct (cb_checked cb) eqn:Hchecked; [lia|].
  assert (Hcb : restyle (length (checked_boxes cbs)) cb = cb).
  { assert (H : updateTagCheckboxes cbs !! i = Some cb) by (by rewrite Hfix).
    unfold updateTagCheckboxes in H. cbv zeta in H.
    rewrite list_lookup_fmap, Hi in H. by injection H. }
  unfold restyle in Hcb. rewrite Hchecked in Hcb. cbn [negb andb] in Hcb.
  destruct (2 <=? length (checked_boxes cbs)) eqn:Hn.
  - rewrite <- Hcb in Hdis. discriminate Hdis.
  - apply Nat.leb_gt in Hn. lia.
Qed.

Lemma capped_reset cbs : capped (resetCheckboxes cbs).
Proof.
  unfold resetCheckboxes. apply capped_update.
  assert (H : checked_boxes
                ((λ cb, mkCheckbox (cb_value cb) false (cb_disabled cb)
                          (option_opacity cb) (option_cursor cb)) <$> cbs) = []).
  { unfold checked_boxes. induction cbs as [|cb cbs IH]; [reflexivity|].
    rewrite fmap_cons, filter_cons_False by discriminate. exact IH. }
  rewrite H. simpl. lia.
Qed.

(** The two-tag cap of the form: once the modal is opened, whatever
    boxes the user clicks, never more than two are checked, no box is
    both checked and disabled, and as long as fewer than two are checked
    none is disabled. *)
Theorem clicks_keep_two_tag_cap (clicks : list nat) (cbs0 : list Checkbox) :
  let cbs := clickCheckboxes clicks (resetCheckboxes cbs0) in
  length (checked_boxes cbs) ≤ 2 ∧
  (∀ cb, cb ∈ cbs → cb_checked cb = true → cb_disabled cb = false) ∧
  (length (checked_boxes cbs) < 2 → ∀ cb, cb ∈ cbs → cb_disabled cb = false).
Proof.
  intros cbs.
  assert (Hcap : capped cbs).
  { unfold cbs, clickCheckboxes. generalize (capped_reset cbs0).
    generalize (resetCheckboxes cbs0). induction clicks as [|i clicks IH]; intros boxes Hb.
    - exact Hb.
    - simpl. apply IH. by apply capped_click. }
  destruct Hcap as [Hcount Hfix]. split; [exact Hcount|].
  assert (Hrestyled : ∀ cb, cb ∈ cbs →
            ∃ cb0, cb = restyle (length (checked_boxes cbs)) cb0).
  { intros cb Hcb. rewrite <- Hfix in Hcb. unfold updateTagCheckboxes in Hcb.
    cbv zeta in Hcb. apply list_elem_of_fmap in Hcb as (cb0 & -> & _). by exists cb0. }
  split.
  - intros cb [cb0 ->]%Hrestyled Hchecked. rewrite restyle_checked in Hchecked.
    unfold restyle. rewrite Hchecked. reflexivity.
  - intros Hlt cb [cb0 ->]%Hrestyled. unfold restyle.
    rewrite (proj2 (Nat.leb_gt 2 _) Hlt), andb_false_r. reflexivity.
Qed.

Lemma clicks_keep_two_tag_cap_witness :
  let boxes := [ mkCheckbox "Front-End" true true "0.5" "not-allowed";
                 mkCheckbox "Back-End" false false "1" "pointer";
                 mkCheckbox "DevOps" true false "1" "pointer" ] in
  length (checked_boxes (clickCheckboxes [0; 1; 2; 2] (resetCheckboxes boxes))) ≤ 2.
Proof. cbv zeta. apply clicks_keep_two_tag_cap. Defined.

Example third_box_is_refused :
  let boxes := [ mkCheckbox "Front-End" false false "1" "pointer";
                 mkCheckbox "Back-End" false false "1" "pointer";
                 mkCheckbox "DevOps" false false "1" "pointer" ] in
  cb_checked <$> clickCheckboxes [0; 1; 2] boxes = [true; true; false] ∧
  cb_disabled <$> clickCheckboxes [0; 1; 2] boxes = [false; false; true] ∧
  cb_checked <$> clickCheckboxes [0; 1; 0; 2] boxes = [false; true; true].
Proof. cbv zeta. repeat split; by vm_compute. Qed.

(** ** More on the due date *)

Lemma app_nonempty_l (s1 s2 : string) : s1 ≠ "" → s1 +:+ s2 ≠ "".
Proof. by destruct s1. Qed.

Lemma app_nonempty_r (s1 s2 : string) : s2 ≠ "" → s1 +:+ s2 ≠ "".
Proof. destruct s1; [done|]. intros _. discriminate. Qed.

Lemma label_for_days_nonempty n : label_for_days n ≠ "".
Proof.
  unfold label_for_days. destruct (0 <? n)%Z; [by apply app_nonempty_l|].
  destruct (n =? 0)%Z; [discriminate|].
  apply app_nonempty_r. by destruct (n =? -1)%Z.
Qed.

Section DueDateMore.
Variable Date_parse : string → option Z.
Variable utc_offset : Z.

(** The label of a string the platform reads as the instant [t]. *)
Lemma getDueDateLabel_instant now s t :
  s ≠ "" → Date_parse s = Some t →
  getDueDateLabel Date_parse now utc_offset s =
  label_for_days (local_day utc_offset t - local_day utc_offset now)%Z.
Proof.
  intros Hs%truthy_true Hparse. unfold getDueDateLabel. rewrite Hs, Hparse. cbn [negb].
  cbv zeta.
  assert (Hdiff : (setHours0 utc_offset t - setHours0 utc_offset now
                   = (local_day utc_offset t - local_day utc_offset now) * msPerDay)%Z).
  { unfold setHours0. lia. }
  rewrite Hdiff, Math_round_div_mul by (unfold msPerDay; lia).
  generalize (local_day utc_offset t - local_day utc_offset now)%Z. intros n.
  unfold label_for_days.
  destruct (0 <? n)%Z eqn:Hpos.
  - destruct (n =? 1)%Z; [by rewrite app_empty_r|reflexivity].
  - destruct (n =? 0)%Z eqn:Hzero; [reflexivity|].
    apply Z.ltb_ge in Hpos. apply Z.eqb_neq in Hzero.
    rewrite Z.abs_neq by lia.
    destruct (n =? -1)%Z eqn:Hone.
    + apply Z.eqb_eq in Hone. subst n. reflexivity.
    + apply Z.eqb_neq in Hone. rewrite (proj2 (Z.eqb_neq (- n) 1)) by lia. reflexivity.
Qed.

(** The time of day is ignored on both sides: two date strings read as
    instants of the same local day get the same label, at any two
    moments of the same local day. *)
Theorem getDueDateLabel_ignores_time_of_day now1 now2 s1 s2 t1 t2 :
  s1 ≠ "" → s2 ≠ "" →
  Date_parse s1 = Some t1 → Date_parse s2 = Some t2 →
  local_day utc_offset t1 = local_day utc_offset t2 →
  local_day utc_offset now1 = local_day utc_offset now2 →
  getDueDateLabel Date_parse now1 utc_offset s1 =
  getDueDateLabel Date_parse now2 utc_offset s2.
Proof.
  intros Hs1 Hs2 Hp1 Hp2 Ht Hnow.
  rewrite (getDueDateLabel_instant now1 s1 t1 Hs1 Hp1).
  rewrite (getDueDateLabel_instant now2 s2 t2 Hs2 Hp2).
  by rewrite Ht, Hnow.
Qed.

(** The label is empty exactly for the empty string and for the
    strings the platform cannot read as a date. *)
Theorem getDueDateLabel_empty_iff now s :
  getDueDateLabel Date_parse now utc_offset s = "" ↔ s = "" ∨ Date_parse s = None.
Proof.
  split.
  - intros Hlabel. destruct (decide (s = "")) as [|Hs]; [by left|]. right.
    destruct (Date_parse s) as [t|] eqn:Hparse; [|reflexivity].
    rewrite (getDueDateLabel_instant now s t Hs Hparse) in Hlabel.
    by apply label_for_days_nonempty in Hlabel.
  - intros [-> | Hparse]; [reflexivity|]. unfold getDueDateLabel. rewrite Hparse.
    by destruct (JS.truthy s).
Qed.


(** A card without a due date, with a blank one, or with one the
    platform cannot read, gets no indicator and is never marked
    overdue; and no element is marked overdue without an indicator. *)
Theorem createCardElement_no_due now_label now_flag card :
  let el := createCardElement Date_parse utc_offset now_label now_flag card in
  ((dueDate card = None ∨
    (∃ d, dueDate card = Some d ∧ (JS.trim d = "" ∨ Date_parse (JS.trim d) = None))) →
   due_indicator el = None ∧ card_overdue el = false) ∧
  (card_overdue el = true → is_Some (due_indicator el)).
Proof.
  intros el. unfold el, createCardElement. split.
  - intros [-> | (d & -> & Hd)]; [by split|].
    destruct (JS.truthy d) eqn:Htd; [|by rewrite Htd].
    destruct Hd as [-> | Hparse]; [by split|].
    destruct (JS.truthy (JS.trim d)); [|by split].
    rewrite (getDueDateLabel_invalid Date_parse now_label utc_offset _ Hparse).
    by split.
  - destruct (dueDate card) as [d|]; [|discriminate].
    destruct (JS.truthy (if JS.truthy d then JS.trim d else d)); [|discriminate].
    destruct (JS.truthy (getDueDateLabel _ _ _ _)); [eauto|discriminate].
Qed.
End DueDateMore.

(** Noon and one o'clock of 2024-06-15 at UTC+2. *)
Lemma getDueDateLabel_ignores_time_of_day_witness :
  getDueDateLabel Date_parse_date_only 1718445600000 7200000 "2024-06-20" =
  getDueDateLabel Date_parse_date_only 1718449200000 7200000 "2024-06-20".
Proof.
  apply (getDueDateLabel_ignores_time_of_day Date_parse_date_only 7200000
           1718445600000 1718449200000 "2024-06-20" "2024-06-20"
           (19894 * msPerDay) (19894 * msPerDay));
    first [discriminate | by vm_compute].
Defined.




Lemma createCardElement_no_due_witness :
  let card := mkCard "7" "Feature - due dates" "" "to-learn" None (Some "someday") in
  let el := createCardElement Date_parse_date_only 7200000
              1718445600000 1718445600001 card in
  due_indicator el = None ∧ card_overdue el = false.
Proof.
  cbv zeta.
  apply (createCardElement_no_due Date_parse_date_only 7200000
           1718445600000 1718445600001
           (mkCard "7" "Feature - due dates" "" "to-learn" None (Some "someday"))).
  right. exists "someday". split; [reflexivity|]. right. by vm_compute.
Defined.

(** ** The earlier variant *)

(** With no due date given, and the modal in add mode, the submit
    handler does what the handler of the earlier variant does: the same
    card is appended and saved, and the same state is left. *)
Theorem submit_agrees_with_earlier_variant
    (JSON_stringify : JS.value → string) (s : State) (f : Submission) :
  editingCardId s = None →
  dueDateInput f = "" →
  exec (handleAddCardSubmit JSON_stringify f) s
  = exec (handleAddCardSubmit_earlier JSON_stringify f) s ∧
  completes (handleAddCardSubmit JSON_stringify f) s
  = completes (handleAddCardSubmit_earlier JSON_stringify f) s.
Proof.
  intros Hmode Hdue. unfold handleAddCardSubmit, handleAddCardSubmit_earlier.
  destruct (JS.truthy (JS.trim (titleInput f))); [|by split]. cbn [negb].
  destruct (2 <? length (checkedTags f)); [by split|].
  rewrite Hdue. cbn [JS.truthy]. unfold exec, completes.
  unfold mbind at 1 5, M_bind at 1 5, gets. rewrite Hmode.
  unfold push_new. destruct s as [cs e st b]. simpl in Hmode. subst e.
  change (JS.or_undefined "") with (@None string).
  run; split; reflexivity.
Qed.

Lemma submit_agrees_with_earlier_variant_witness :
  let s := mkState DEFAULT_CARDS None fresh_storage four_columns in
  exec (handleAddCardSubmit JSONText.stringify learn_rust_form) s
  = exec (handleAddCardSubmit_earlier JSONText.stringify learn_rust_form) s.
Proof.
  cbv zeta.
  apply (submit_agrees_with_earlier_variant JSONText.stringify
           (mkState DEFAULT_CARDS None fresh_storage four_columns) learn_rust_form);
    reflexivity.
Defined.

(** ** Edit mode on the running page *)

Section EditMode.
Variable JSON_stringify : JS.value → string.

Lemma editing_submit f s :
  editingCardId (exec (handleAddCardSubmit JSON_stringify f) s) = editingCardId s ∨
  editingCardId (exec (handleAddCardSubmit JSON_stringify f) s) = None.
Proof.
  destruct (accepted f) eqn:Hacc; [|left; by rewrite submit_rejected].
  destruct (editingCardId s) as [[|a cardId]|] eqn:Hmode.
  - rewrite (submit_in_add_mode _ _ _ Hacc (or_intror Hmode)).
    unfold push_new. run; [by right|by left].
  - rewrite (submit_in_edit_mode _ _ _ _ Hacc Hmode) by discriminate.
    unfold update_existing. unfold_M. simpl_state.
    destruct (find_card (String a cardId) (cards s)) as [[i c]|]; [|by right].
    run; [by right|by left].
  - rewrite (submit_in_add_mode _ _ _ Hacc (or_introl Hmode)).
    unfold push_new. run; by right.
Qed.

Lemma editing_handleDrop columnId cardId s :
  editingCardId (exec (handleDrop JSON_stringify columnId cardId) s) = editingCardId s.
Proof.
  unfold handleDrop. destruct columnId as [col|]; [|reflexivity].
  destruct (negb (JS.truthy col) || negb (COLUMNS_includes col)); [reflexivity|].
  destruct (negb (JS.truthy cardId)); [reflexivity|].
  unfold_M. simpl_state.
  destruct (find_card cardId (cards s)) as [[i c]|]; [|reflexivity].
  run; reflexivity.
Qed.

Lemma editing_modalDeleteClick confirmed s :
  editingCardId (exec (modalDeleteClick JSON_stringify confirmed) s) = editingCardId s ∨
  editingCardId (exec (modalDeleteClick JSON_stringify confirmed) s) = None.
Proof.
  rewrite modalDeleteClick_run.
  destruct (editingCardId s) as [cardId|] eqn:Hmode; [|by left].
  destruct (JS.truthy cardId && confirmed); [|by left].
  unfold deleteCard. run; [by right|by left].
Qed.

Lemma editing_gearClick cardId s :
  editingCardId (exec (gearClick cardId) s) = editingCardId s ∨
  (cardId ≠ "" ∧ editingCardId (exec (gearClick cardId) s) = Some cardId).
Proof.
  unfold gearClick. destruct (JS.truthy cardId) eqn:Hid; [|by left].
  apply truthy_true in Hid. unfold openEditModal. unfold_M. simpl_state.
  destruct (find_card cardId (cards s)); [by right|by left].
Qed.

(** No listener puts the empty string in [editingCardId]. *)
Lemma listener_keeps_editing_truthy s s' :
  listener JSON_stringify s s' →
  editingCardId s ≠ Some "" → editingCardId s' ≠ Some "".
Proof.
  intros Hl Hs. destruct Hl.
  - discriminate.
  - by destruct (editing_submit f s) as [-> | ->].
  - discriminate.
  - by destruct (editing_modalDeleteClick confirmed s) as [-> | ->].
  - destruct (editing_gearClick cardId s) as [-> | [Hid ->]]; [exact Hs|].
    intros [= ->]. by apply Hid.
  - by rewrite editing_handleDrop.
Qed.

Lemma init_editing JSON_parse st page s0 :
  init JSON_parse JSON_stringify st page = Some s0 → editingCardId s0 = None.
Proof.
  unfold init. destruct (load_cards JSON_parse st) as [cs|]; [|discriminate].
  cbn [mbind option_bind]. intros [= <-]. run; reflexivity.
Qed.

(** On the running page, edit mode is always for a non-empty id. *)
Lemma page_editing_truthy JSON_parse st page s0 s :
  init JSON_parse JSON_stringify st page = Some s0 →
  rtc (listener JSON_stringify) s0 s →
  editingCardId s ≠ Some "".
Proof.
  intros Hinit Hrun.
  assert (H0 : editingCardId s0 ≠ Some "") by (by rewrite (init_editing _ _ _ _ Hinit)).
  clear Hinit. induction Hrun as [|s1 s2 s3 Hl _ IH]; [exact H0|].
  apply IH. by eapply listener_keeps_editing_truthy.
Qed.
End EditMode.

(** C6: in every state the page reaches from its start through its
    listeners, [updateCard(id, ...)], the submit of the form while it
    edits the card [id], mutates only the title, description, tags and
    dueDate of the (first) card with that id: that card keeps its id and
    its column, every other card is unchanged, and when no card has the
    id the collection is left as it is. *)
Theorem updateCard_mutates_only_form_fields
    (JSON_parse : string → option JS.value) (JSON_stringify : JS.value → string)
    (st : Storage) (page : gmap string (list Card))
    (s0 s : State) (cardId : string) (f : Submission) :
  init JSON_parse JSON_stringify st page = Some s0 →
  rtc (listener JSON_stringify) s0 s →
  editingCardId s = Some cardId →
  let s' := exec (handleAddCardSubmit JSON_stringify f) s in
  (cardId ∈ id <$> cards s →
   ∃ i c c', cards s !! i = Some c ∧ id c = cardId ∧
             (∀ j x, cards s !! j = Some x → j < i → id x ≠ cardId) ∧
             cards s' = <[i := c']> (cards s) ∧
             id c' = id c ∧ column c' = column c ∧
             (accepted f = true →
              title c' = JS.trim (titleInput f) ∧
              description c' = JS.trim (descriptionInput f) ∧
              tags c' = Some (checkedTags f) ∧
              dueDate c' = JS.or_undefined (dueDate_of f)) ∧
             length (cards s') = length (cards s) ∧
             (∀ j, j ≠ i → cards s' !! j = cards s !! j)) ∧
  (cardId ∉ id <$> cards s → cards s' = cards s).
Proof.
  intros Hinit Hrun Hmode.
  apply edit_submit_frame; [exact Hmode|].
  intros ->. apply (page_editing_truthy _ _ _ _ _ _ Hinit Hrun). exact Hmode.
Qed.

(** A first run: card ["3"] is dropped on another column, the gear of
    card ["7"] is clicked, and the form is submitted. *)
Lemma updateCard_mutates_only_form_fields_witness :
  let s0 := exec (save JSONText.stringify;; renderBoard)
              (mkState DEFAULT_CARDS None fresh_storage four_columns) in
  let s := exec (gearClick "7")
             (exec (handleDrop JSONText.stringify (Some "blocked") "3") s0) in
  let s' := exec (handleAddCardSubmit JSONText.stringify learn_rust_form) s in
  ∃ i c c', cards s !! i = Some c ∧ id c = "7" ∧
            cards s' = <[i := c']> (cards s) ∧
            id c' = id c ∧ column c' = column c ∧ title c' = "Learn Rust".
Proof.
  cbv zeta.
  pose (s0 := exec (save JSONText.stringify;; renderBoard)
                (mkState DEFAULT_CARDS None fresh_storage four_columns)).
  pose (s := exec (gearClick "7")
               (exec (handleDrop JSONText.stringify (Some "blocked") "3") s0)).
  destruct (updateCard_mutates_only_form_fields (λ _, None) JSONText.stringify
              fresh_storage four_columns s0 s "7" learn_rust_form) as [Hupd _].
  - reflexivity.
  - eapply rtc_l; [apply listener_drop|]. apply rtc_once, listener_board_click.
  - by vm_compute.
  - destruct Hupd as (i & c & c' & Hi & Hc & _ & Hs' & Hid & Hcol & Hfields & _).
    + compute_done.
    + exists i, c, c'. split; [exact Hi|]. split; [exact Hc|]. split; [exact Hs'|].
      split; [exact Hid|]. split; [exact Hcol|].
      destruct Hfields as [Ht _]; [by vm_compute|]. rewrite Ht. by vm_compute.
Defined.
